(** * Task tracker: the task store and the component that drives it

    A shallow embedding of [src/app/services/task.service.ts] (class
    [TaskService]) and of the root component ([AppComponent]) together with
    the properties of the store and of the orchestration layer.

    Conventions.
    - A JavaScript string is the list of its UTF-16 code units.
    - [Date] values and [Date.now()] are milliseconds, natural numbers; the
      clock never runs backwards, a read is the previous instant plus a
      non-negative advance given by the environment.
    - [nextId] is an unbounded natural number (the source holds it in a
      double, exact up to 2^53 increments).
    - An optional string property of a request is an [option]: [None] is
      the property absent or [undefined], which the code reads alike.  The
      optional [completed] stands for its three cases: absent, [undefined],
      or a boolean; and so does the flag of a stored task, which the spread
      of a request can leave [undefined]. *)

From Stdlib Require Import List NArith Bool Ascii String Lia.
From Stdlib Require Import DecimalString DecimalN DecimalFacts.
Import ListNotations.

Set Implicit Arguments.
Open Scope N_scope.

(** ** JavaScript strings *)

Module JS.

Definition code_unit := N.
Definition jsstring := list code_unit.

(** A string literal of the source. *)
Definition lit (s : string) : jsstring :=
  map N_of_ascii (list_ascii_of_string s).

(** [===] on strings. *)
Fixpoint str_eqb (a b : jsstring) : bool :=
  match a, b with
  | [], [] => true
  | x :: a', y :: b' => (x =? y) && str_eqb a' b'
  | _, _ => false
  end.

(** WhiteSpace and LineTerminator code points of ECMAScript, the ones
    [String.prototype.trim] strips. *)
Definition isWhiteSpace (c : code_unit) : bool :=
  (c =? 9) || (c =? 10) || (c =? 11) || (c =? 12) || (c =? 13) || (c =? 32)
  || (c =? 160) || (c =? 5760) || ((8192 <=? c) && (c <=? 8202))
  || (c =? 8232) || (c =? 8233) || (c =? 8239) || (c =? 8287)
  || (c =? 12288) || (c =? 65279).

Fixpoint trimStart (s : jsstring) : jsstring :=
  match s with
  | c :: s' => if isWhiteSpace c then trimStart s' else s
  | [] => []
  end.

Definition trimEnd (s : jsstring) : jsstring := rev (trimStart (rev s)).

(** [s.trim()] *)
Definition trim (s : jsstring) : jsstring := trimEnd (trimStart s).

(** Truthiness of a string: the empty string is the only falsy one. *)
Definition truthy (s : jsstring) : bool :=
  match s with [] => false | _ :: _ => true end.

(** [a || b] where [a] is a string or [undefined]. *)
Definition or_else (a : option jsstring) (b : jsstring) : jsstring :=
  match a with
  | Some s => if truthy s then s else b
  | None => b
  end.

(** [`${n}`] for a non-negative integer below 10^21: its decimal digits. *)
Definition toString (n : N) : jsstring :=
  lit (NilEmpty.string_of_uint (N.to_uint n)).

Definition blank (s : jsstring) : bool := forallb isWhiteSpace s.

(** A value of type [boolean | undefined]: [None] is [undefined]. *)
Definition flag := option bool.

(** Truthiness of such a value: [undefined] is falsy. *)
Definition holds (v : flag) : bool :=
  match v with
  | Some b => b
  | None => false
  end.

(** [v === c] for a boolean [c]. *)
Definition is_boolean (v : flag) (c : bool) : bool :=
  match v with
  | Some b => Bool.eqb b c
  | None => false
  end.

End JS.
Import JS.

(** ** Data model ([models/task.model.ts]) *)

Record Task := mkTask {
  id : jsstring;
  title : jsstring;
  description : jsstring;
  completed : flag;
  createdAt : N;
  updatedAt : N
}.

Record CreateTaskRequest := mkCreate {
  new_title : jsstring;
  new_description : jsstring
}.

Record UpdateTaskRequest := mkUpdate {
  upd_title : option jsstring;
  upd_description : option jsstring;
  upd_completed : option flag   (* None: no such property *)
}.

(** [new Error(message)] *)
Record Error := mkError { message : jsstring }.

Inductive result (A : Type) : Type :=
| Ok (a : A)
| Err (e : Error).
Arguments Ok {A} a.
Arguments Err {A} e.

(** ** Arrays *)

Section Arrays.
Context {A : Type}.

(** [l.findIndex(p)]: the first index whose element satisfies [p], returned
    with the element stored there ([l[index]]); [None] is the source's -1. *)
Fixpoint findIndex (p : A -> bool) (l : list A) : option (nat * A) :=
  match l with
  | [] => None
  | x :: l' =>
      if p x then Some (O, x)
      else match findIndex p l' with
           | Some (i, y) => Some (S i, y)
           | None => None
           end
  end.

(** [l[i] = x] for an index inside the array. *)
Fixpoint assign (i : nat) (x : A) (l : list A) : list A :=
  match l, i with
  | [], _ => []
  | _ :: l', O => x :: l'
  | y :: l', S i' => y :: assign i' x l'
  end.

(** [l.splice(i, 1)] *)
Fixpoint splice1 (i : nat) (l : list A) : list A :=
  match l, i with
  | [], _ => []
  | _ :: l', O => l'
  | y :: l', S i' => y :: splice1 i' l'
  end.
End Arrays.

(** ** The task store ([TaskService]) *)

Record TaskService := mkService {
  tasks : list Task;          (* private tasks: Task[] *)
  tasksSubject : list Task;   (* the value held by the BehaviorSubject *)
  nextId : N
}.

(** The store and the system clock it reads. *)
Record World := mkWorld {
  service : TaskService;
  clock : N
}.

(** [new Date()] / [Date.now()]: the clock has moved on by [adv]. *)
Definition newDate (adv : N) (w : World) : N * World :=
  let now := clock w + adv in (now, mkWorld (service w) now).

Definition hasId (taskId : jsstring) (t : Task) : bool := str_eqb (id t) taskId.

(** [`task_${n}_${t}`] *)
Definition taskIdOf (n t : N) : jsstring :=
  lit "task_" ++ toString n ++ lit "_" ++ toString t.

(** [`task_${this.nextId++}_${Date.now()}`] *)
Definition generateId (adv : N) (w : World) : jsstring * World :=
  let s := service w in
  let n := nextId s in
  let w1 := mkWorld (mkService (tasks s) (tasksSubject s) (n + 1)) (clock w) in
  let (now, w2) := newDate adv w1 in
  (taskIdOf n now, w2).

(** [this.tasks = l'; this.tasksSubject.next([...this.tasks])] *)
Definition commit (l' : list Task) (w : World) : World :=
  mkWorld (mkService l' l' (nextId (service w))) (clock w).

Definition titleRequired : Error := mkError (lit "Task title is required").
Definition titleEmpty : Error := mkError (lit "Task title cannot be empty").
Definition notFound (taskId : jsstring) : Error :=
  mkError (lit "Task with ID " ++ taskId ++ lit " not found").

(** [createTask(taskData)].  [adv] gives the advances of the clock at the
    three reads: [Date.now()] in [generateId], then the two [new Date()]. *)
Definition createTask (taskData : CreateTaskRequest) (adv : N * N * N)
    (w : World) : result Task * World :=
  if negb (truthy (trim (new_title taskData))) then (Err titleRequired, w)
  else
    let '(a1, a2, a3) := adv in
    let (newId, w1) := generateId a1 w in
    let (created, w2) := newDate a2 w1 in
    let (updated, w3) := newDate a3 w2 in
    let newTask :=
      {| id := newId;
         title := trim (new_title taskData);
         description := trim (new_description taskData);
         completed := Some false;
         createdAt := created;
         updatedAt := updated |} in
    (Ok newTask, commit (tasks (service w3) ++ [newTask]) w3).

(** [updates.title !== undefined && !updates.title.trim()] *)
Definition emptyTitle (updates : UpdateTaskRequest) : bool :=
  match upd_title updates with
  | Some s => negb (truthy (trim s))
  | None => false
  end.

(** [{ ...existingTask, ...updates, title: .., description: .., updatedAt: .. }]:
    the spread of [updates] copies [completed] whenever the request has the
    property, [undefined] included; [title] and [description] are written
    again after it. *)
Definition merge (existingTask : Task) (updates : UpdateTaskRequest)
    (now : N) : Task :=
  {| id := id existingTask;
     title := or_else (option_map trim (upd_title updates)) (title existingTask);
     description :=
       or_else (option_map trim (upd_description updates))
               (description existingTask);
     completed :=
       match upd_completed updates with
       | Some v => v
       | None => completed existingTask
       end;
     createdAt := createdAt existingTask;
     updatedAt := now |}.

(** [updateTask(id, updates)] *)
Definition updateTask (taskId : jsstring) (updates : UpdateTaskRequest)
    (adv : N) (w : World) : result Task * World :=
  match findIndex (hasId taskId) (tasks (service w)) with
  | None => (Err (notFound taskId), w)
  | Some (taskIndex, existingTask) =>
      if emptyTitle updates then (Err titleEmpty, w)
      else
        let (now, w1) := newDate adv w in
        let updatedTask := merge existingTask updates now in
        (Ok updatedTask,
         commit (assign taskIndex updatedTask (tasks (service w1))) w1)
  end.

(** [deleteTask(id)] *)
Definition deleteTask (taskId : jsstring) (w : World) : result bool * World :=
  match findIndex (hasId taskId) (tasks (service w)) with
  | None => (Err (notFound taskId), w)
  | Some (taskIndex, _) =>
      (Ok true, commit (splice1 taskIndex (tasks (service w))) w)
  end.

(** [toggleTaskCompletion(id)] *)
Definition toggleTaskCompletion (taskId : jsstring) (adv : N) (w : World)
    : result Task * World :=
  match find (hasId taskId) (tasks (service w)) with
  | None => (Err (notFound taskId), w)
  | Some task =>
      updateTask taskId
        (mkUpdate None None (Some (Some (negb (holds (completed task)))))) adv w
  end.

(** [getTaskById(id)]: the task or [null]. *)
Definition getTaskById (taskId : jsstring) (w : World) : option Task :=
  find (hasId taskId) (tasks (service w)).

(** [getTasksByStatus(completed)] applied to a snapshot. *)
Definition getTasksByStatus (c : bool) (snapshot : list Task) : list Task :=
  filter (fun task => is_boolean (completed task) c) snapshot.

Definition sampleTasks : list CreateTaskRequest :=
  [ mkCreate (lit "Learn Angular 18")
      (lit "Study the new features and improvements in Angular 18");
    mkCreate (lit "Build Task Tracker")
      (lit "Create a simple task management application");
    mkCreate (lit "Write Unit Tests")
      (lit "Add comprehensive test coverage for all components") ].

(** [initializeSampleData()]: [sampleTasks.forEach(createTask)]; [advs i] are
    the clock advances during the i-th call. *)
Fixpoint initializeSampleData (reqs : list CreateTaskRequest)
    (advs : nat -> N * N * N) (w : World) : World :=
  match reqs with
  | [] => w
  | taskData :: reqs' =>
      initializeSampleData reqs' (fun i => advs (S i))
        (snd (createTask taskData (advs O) w))
  end.

(** [new TaskService()] at instant [t0]. *)
Definition newTaskService (t0 : N) (advs : nat -> N * N * N) : World :=
  initializeSampleData sampleTasks advs (mkWorld (mkService [] [] 1) t0).

(** One call on the store, or the mere passing of time. *)
Inductive step : World -> World -> Prop :=
| step_create taskData adv w : step w (snd (createTask taskData adv w))
| step_update taskId updates adv w :
    step w (snd (updateTask taskId updates adv w))
| step_delete taskId w : step w (snd (deleteTask taskId w))
| step_toggle taskId adv w : step w (snd (toggleTaskCompletion taskId adv w))
| step_wait adv w : step w (snd (newDate adv w)).

(** [steps w w']: [w'] comes after [w] in the life of the store. *)
Inductive steps : World -> World -> Prop :=
| steps_refl w : steps w w
| steps_next w w1 w2 : steps w w1 -> step w1 w2 -> steps w w2.

(** The worlds a store goes through from its construction on. *)
Definition reachable (w : World) : Prop :=
  exists t0 advs, steps (newTaskService t0 advs) w.

(** ** The root component ([AppComponent]) *)

Record AppComponent := mkApp {
  shownTasks : list Task;        (* tasks *)
  editingTask : option Task;     (* null is None *)
  isLoading : bool;
  isSubmitting : bool;
  errorMessage : jsstring;
  successMessage : jsstring
}.

(** What the event loop holds for the component: the callback of the
    [setTimeout] of [showSuccess], and the [next] handlers of the
    subscriptions, each waiting behind a [delay] of the store. *)
Inductive callback : Type :=
| ClearSuccess
| LoadNext (snapshot : list Task)
| UpdateNext (updatedTask : Task)
| CreateNext (newTask : Task)
| ToggleNext (updatedTask : Task)
| DeleteNext (taskId : jsstring).

(** The subscriptions are piped through [takeUntil(this.destroy$)]; the
    timer of [showSuccess] is not, and its handle is not kept. *)
Definition untilDestroy (c : callback) : bool :=
  match c with
  | ClearSuccess => false
  | _ => true
  end.

Record System := mkSystem {
  world : World;                   (* the injected store, and the clock *)
  app : AppComponent;
  now : N;                         (* time of the event loop, ms *)
  queue : list (N * callback);     (* pending callbacks, next to fire first *)
  listening : bool                 (* the subscription of loadTasks is live *)
}.

(** Timers fire by due time, and in order of registration when equal. *)
Fixpoint enqueue (e : N * callback) (q : list (N * callback))
    : list (N * callback) :=
  match q with
  | [] => [e]
  | x :: q' => if fst x <=? fst e then x :: enqueue e q' else e :: q
  end.

Definition schedule (delay : N) (c : callback) (s : System) : System :=
  mkSystem (world s) (app s) (now s)
           (enqueue (now s + delay, c) (queue s)) (listening s).

Definition setApp (a : AppComponent) (s : System) : System :=
  mkSystem (world s) a (now s) (queue s) (listening s).

Definition setWorld (w : World) (s : System) : System :=
  mkSystem w (app s) (now s) (queue s) (listening s).

(** A mutation of the store has emitted on [tasksSubject]; the value reaches
    the subscriber of [getTasks()] behind [delay(100)]. *)
Definition emitted (s : System) : System :=
  if listening s
  then schedule 100 (LoadNext (tasksSubject (service (world s)))) s
  else s.

Definition clearMessages (s : System) : System :=
  let a := app s in
  setApp (mkApp (shownTasks a) (editingTask a) (isLoading a) (isSubmitting a)
                [] []) s.

Definition clearError (s : System) : System :=
  let a := app s in
  setApp (mkApp (shownTasks a) (editingTask a) (isLoading a) (isSubmitting a)
                [] (successMessage a)) s.

(** [showSuccess(message)] *)
Definition showSuccess (msg : jsstring) (s : System) : System :=
  let a := app s in
  schedule 3000 ClearSuccess
    (setApp (mkApp (shownTasks a) (editingTask a) (isLoading a)
                   (isSubmitting a) (errorMessage a) msg) s).

(** [handleError(message, error)]: [error?.message || message] *)
Definition handleError (msg : jsstring) (error : Error) (s : System) : System :=
  let a := app s in
  setApp (mkApp (shownTasks a) (editingTask a) (isLoading a) (isSubmitting a)
                (or_else (Some (message error)) msg) (successMessage a)) s.

Definition setEditing (e : option Task) (s : System) : System :=
  let a := app s in
  setApp (mkApp (shownTasks a) e (isLoading a) (isSubmitting a)
                (errorMessage a) (successMessage a)) s.

Definition setSubmitting (b : bool) (s : System) : System :=
  let a := app s in
  setApp (mkApp (shownTasks a) (editingTask a) (isLoading a) b
                (errorMessage a) (successMessage a)) s.

Definition setLoading (b : bool) (s : System) : System :=
  let a := app s in
  setApp (mkApp (shownTasks a) (editingTask a) b (isSubmitting a)
                (errorMessage a) (successMessage a)) s.

Definition setShown (l : list Task) (s : System) : System :=
  let a := app s in
  setApp (mkApp l (editingTask a) (isLoading a) (isSubmitting a)
                (errorMessage a) (successMessage a)) s.

Definition quoted (x : jsstring) : jsstring := [34] ++ x ++ [34].

(** The body of each callback. *)
Definition deliver (c : callback) (s : System) : System :=
  match c with
  | ClearSuccess =>
      let a := app s in
      setApp (mkApp (shownTasks a) (editingTask a) (isLoading a)
                    (isSubmitting a) (errorMessage a) []) s
  | LoadNext snapshot => setLoading false (setShown snapshot s)
  | UpdateNext updatedTask =>
      setSubmitting false
        (setEditing None
           (showSuccess (lit "Task " ++ quoted (title updatedTask)
                           ++ lit " updated successfully!") s))
  | CreateNext newTask =>
      setSubmitting false
        (showSuccess (lit "Task " ++ quoted (title newTask)
                        ++ lit " created successfully!") s)
  | ToggleNext updatedTask =>
      let status :=
        if holds (completed updatedTask) then lit "completed"
        else lit "pending" in
      showSuccess (lit "Task marked as " ++ status ++ lit "!") s
  | DeleteNext taskId =>
      let s1 := showSuccess (lit "Task deleted successfully!") s in
      match editingTask (app s1) with
      | Some t => if str_eqb (id t) taskId then setEditing None s1 else s1
      | None => s1
      end
  end.

(** [new AppComponent(taskService)] at time [t] of the event loop. *)
Definition newAppComponent (w : World) (t : N) : System :=
  mkSystem w (mkApp [] None false false [] []) t [] false.

(** [ngOnInit()], that is [loadTasks()]: the BehaviorSubject replays its
    value to the new subscriber. *)
Definition ngOnInit (s : System) : System :=
  let s1 := clearMessages (setLoading true s) in
  emitted (mkSystem (world s1) (app s1) (now s1) (queue s1) true).

(** [ngOnDestroy()]: [destroy$.next()] ends every subscription taken until
    it; nothing else is touched. *)
Definition ngOnDestroy (s : System) : System :=
  mkSystem (world s) (app s) (now s)
           (filter (fun e => negb (untilDestroy (snd e))) (queue s)) false.

(** [onTaskSubmit(taskData)], with the value the form emits: a title and a
    description. *)
Definition onTaskSubmit (taskData : CreateTaskRequest) (adv : N * N * N)
    (s : System) : System :=
  let s1 := clearMessages (setSubmitting true s) in
  match editingTask (app s1) with
  | Some t =>
      let updates :=
        mkUpdate (Some (new_title taskData)) (Some (new_description taskData))
                 None in
      match updateTask (id t) updates (fst (fst adv)) (world s1) with
      | (Ok updatedTask, w') =>
          schedule 100 (UpdateNext updatedTask) (emitted (setWorld w' s1))
      | (Err error, w') =>
          setSubmitting false
            (handleError (lit "Failed to update task") error (setWorld w' s1))
      end
  | None =>
      match createTask taskData adv (world s1) with
      | (Ok newTask, w') =>
          schedule 100 (CreateNext newTask) (emitted (setWorld w' s1))
      | (Err error, w') =>
          setSubmitting false
            (handleError (lit "Failed to create task") error (setWorld w' s1))
      end
  end.

(** [onToggleComplete(taskId)] *)
Definition onToggleComplete (taskId : jsstring) (adv : N) (s : System)
    : System :=
  let s1 := clearMessages s in
  match toggleTaskCompletion taskId adv (world s1) with
  | (Ok updatedTask, w') =>
      schedule 100 (ToggleNext updatedTask) (emitted (setWorld w' s1))
  | (Err error, w') =>
      handleError (lit "Failed to update task status") error (setWorld w' s1)
  end.

(** [onEditTask(task)] *)
Definition onEditTask (task : Task) (s : System) : System :=
  clearMessages (setEditing (Some task) s).

(** [onDeleteTask(taskId)] *)
Definition onDeleteTask (taskId : jsstring) (s : System) : System :=
  let s1 := clearMessages s in
  match deleteTask taskId (world s1) with
  | (Ok _, w') => schedule 100 (DeleteNext taskId) (emitted (setWorld w' s1))
  | (Err error, w') =>
      handleError (lit "Failed to delete task") error (setWorld w' s1)
  end.

(** [onCancelEdit()] *)
Definition onCancelEdit (s : System) : System :=
  clearMessages (setEditing None s).

(** The event loop runs the next pending callback, when its time has come. *)
Definition fire (s : System) : option System :=
  match queue s with
  | [] => None
  | (d, c) :: q =>
      Some (deliver c (mkSystem (world s) (app s) (N.max (now s) d) q
                                (listening s)))
  end.

(** [n] callbacks in a row; stops early when nothing is pending. *)
Fixpoint fires (n : nat) (s : System) : System :=
  match n with
  | O => s
  | S n' => match fire s with
            | Some s' => fires n' s'
            | None => s
            end
  end.

(** Two component states that differ at most in the success message. *)
Definition sameButSuccess (a b : AppComponent) : Prop :=
  shownTasks a = shownTasks b /\ editingTask a = editingTask b /\
  isLoading a = isLoading b /\ isSubmitting a = isSubmitting b /\
  errorMessage a = errorMessage b.

(** ** A run used in the examples *)

Definition world0 : World := newTaskService 1700000000000 (fun _ => (0, 0, 0)).
Definition task1 : jsstring := lit "task_1_1700000000000".
Definition task2 : jsstring := lit "task_2_1700000000000".

(** The component is started, has received the first snapshot, and the
    deletion of the first task has been confirmed. *)
Definition afterDelete : System :=
  fires 2 (onDeleteTask task1 (fires 1 (ngOnInit (newAppComponent world0 0)))).

(** One tenth of a second after that confirmation the second task is
    toggled, and the toggle is confirmed in turn. *)
Definition afterToggle : System :=
  fires 2 (onToggleComplete task2 0 afterDelete).

(** A fourth task is created, deleted, and another one is created at the
    same instant. *)
Definition brief : CreateTaskRequest := mkCreate (lit "A") [].
Definition task4 : jsstring := lit "task_4_1700000000000".
Definition task5 : jsstring := lit "task_5_1700000000000".
Definition fourth : Task :=
  mkTask task4 (lit "A") [] (Some false) 1700000000000 1700000000000.
Definition fifth : Task :=
  mkTask task5 (lit "A") [] (Some false) 1700000000000 1700000000000.
Definition world1 : World := snd (createTask brief (0, 0, 0) world0).
Definition world2 : World := snd (deleteTask task4 world1).
Definition world3 : World := snd (createTask brief (0, 0, 0) world2).

(** The request that holds [completed: undefined] and nothing else, and the
    store and the first sample task 5 ms after it was sent. *)
Definition flagUndefined : UpdateTaskRequest := mkUpdate None None (Some None).
Definition unflagged : Task :=
  mkTask task1 (lit "Learn Angular 18")
         (lit "Study the new features and improvements in Angular 18")
         None 1700000000000 1700000000005.
Definition world5 : World := snd (updateTask task1 flagUndefined 5 world0).

(** The first sample task, as the constructor stores it. *)
Definition first : Task :=
  mkTask task1 (lit "Learn Angular 18")
         (lit "Study the new features and improvements in Angular 18")
         (Some false) 1700000000000 1700000000000.

(** The component is started and the first sample task is being edited. *)
Definition editingFirst : System :=
  onEditTask first (fires 1 (ngOnInit (newAppComponent world0 0))).

(** What is left of the editing reference once the deletion of [taskId] is
    confirmed. *)
Definition editingAfterDelete (taskId : jsstring) (e : option Task)
    : option Task :=
  match e with
  | Some t => if str_eqb (id t) taskId then None else Some t
  | None => None
  end.

(** ** Notions used in the statements *)

(** [r] is [s] without its leading and trailing white space. *)
Definition startsClean (r : jsstring) : Prop :=
  match r with
  | c :: _ => isWhiteSpace c = false
  | [] => True
  end.

Definition isTrimOf (s r : jsstring) : Prop :=
  exists a b, s = a ++ r ++ b /\ blank a = true /\ blank b = true /\
              startsClean r /\ startsClean (rev r).

Definition isDigit (c : code_unit) : bool := (48 <=? c) && (c <=? 57).

(** No task of the collection carries [taskId]. *)
Definition absent (taskId : jsstring) (w : World) : Prop :=
  forall t, In t (tasks (service w)) -> id t <> taskId.

(** [i] was produced by [generateId] while the counter was below [n]. *)
Definition issued (n : N) (i : jsstring) : Prop :=
  exists k t, i = taskIdOf k t /\ k < n.

(** What holds of every world a store goes through. *)
Definition consistent (w : World) : Prop :=
  Forall (fun t => issued (nextId (service w)) (id t) /\
                   createdAt t <= updatedAt t /\
                   updatedAt t <= clock w)
         (tasks (service w)) /\
  tasksSubject (service w) = tasks (service w).

Definition onlyTimers (q : list (N * callback)) : Prop :=
  Forall (fun e => snd e = ClearSuccess) q.

(** ** Notions used in the further properties *)

(** A title as the store keeps it: not empty, no white space at either end. *)
Definition cleanTitle (t : Task) : Prop :=
  title t <> [] /\ startsClean (title t) /\ startsClean (rev (title t)).

(** The task [createTask] builds in [w] for a request it accepts. *)
Definition taskFor (taskData : CreateTaskRequest) (a1 a2 a3 : N) (w : World)
    : Task :=
  mkTask (taskIdOf (nextId (service w)) (clock w + a1))
         (trim (new_title taskData)) (trim (new_description taskData))
         (Some false) (clock w + a1 + a2) (clock w + a1 + a2 + a3).

(** What one call does to the store, read off the four methods that write
    to it. *)
Inductive change (w w' : World) : Prop :=
| change_none :
    service w' = service w -> clock w <= clock w' -> change w w'
| change_created (taskData : CreateTaskRequest) (a1 a2 a3 : N) :
    blank (new_title taskData) = false ->
    w' = mkWorld (mkService
                    (tasks (service w) ++ [taskFor taskData a1 a2 a3 w])
                    (tasks (service w) ++ [taskFor taskData a1 a2 a3 w])
                    (nextId (service w) + 1))
                 (clock w + a1 + a2 + a3) ->
    change w w'
| change_updated (taskId : jsstring) (updates : UpdateTaskRequest) (adv : N)
    (i : nat) (old : Task) :
    findIndex (hasId taskId) (tasks (service w)) = Some (i, old) ->
    emptyTitle updates = false ->
    w' = mkWorld (mkService
                    (assign i (merge old updates (clock w + adv))
                            (tasks (service w)))
                    (assign i (merge old updates (clock w + adv))
                            (tasks (service w)))
                    (nextId (service w)))
                 (clock w + adv) ->
    change w w'
| change_deleted (taskId : jsstring) (i : nat) (old : Task) :
    findIndex (hasId taskId) (tasks (service w)) = Some (i, old) ->
    w' = commit (splice1 i (tasks (service w))) w ->
    change w w'.

(** The further facts every world of the store satisfies. *)
Definition sound (w : World) : Prop :=
  consistent w /\
  NoDup (map id (tasks (service w))) /\
  Forall cleanTitle (tasks (service w)).

(** The text of the success messages of the component. *)
Definition updatedText (t : Task) : jsstring :=
  lit "Task " ++ quoted (title t) ++ lit " updated successfully!".
Definition createdText (t : Task) : jsstring :=
  lit "Task " ++ quoted (title t) ++ lit " created successfully!".
Definition toggledText (t : Task) : jsstring :=
  lit "Task marked as "
    ++ (if holds (completed t) then lit "completed" else lit "pending")
    ++ lit "!".

(** The request the component sends when the form is submitted on a task
    being edited. *)
Definition asUpdate (taskData : CreateTaskRequest) : UpdateTaskRequest :=
  mkUpdate (Some (new_title taskData)) (Some (new_description taskData)) None.

(** What the framework and the rendering layer call on the component. *)
Inductive call : Type :=
| Init
| Destroy
| Submit (taskData : CreateTaskRequest) (adv : N * N * N)
| Toggle (taskId : jsstring) (adv : N)
| Edit (task : Task)
| Delete (taskId : jsstring)
| CancelEdit
| DismissError.

Definition perform (c : call) (s : System) : System :=
  match c with
  | Init => ngOnInit s
  | Destroy => ngOnDestroy s
  | Submit taskData adv => onTaskSubmit taskData adv s
  | Toggle taskId adv => onToggleComplete taskId adv s
  | Edit task => onEditTask task s
  | Delete taskId => onDeleteTask taskId s
  | CancelEdit => onCancelEdit s
  | DismissError => clearError s
  end.

(** The calls that reach the component while it is displayed. *)
Definition whileAlive (c : call) : bool :=
  match c with
  | Init | Destroy => false
  | _ => true
  end.

(** The answers of the store that end a submission. *)
Definition answersSubmit (c : callback) : bool :=
  match c with
  | UpdateNext _ | CreateNext _ => true
  | _ => false
  end.

(** The systems a component goes through while it is displayed: it is
    created and initialised, it is called, and the event loop runs what is
    pending. *)
Inductive displayed : System -> Prop :=
| displayed_new (w : World) (t : N) :
    displayed (ngOnInit (newAppComponent w t))
| displayed_call (c : call) (s : System) :
    displayed s -> whileAlive c = true -> displayed (perform c s)
| displayed_fire (s s' : System) :
    displayed s -> fire s = Some s' -> displayed s'.

(** ** Further runs used in the examples *)

(** The component is started and has received the first snapshot. *)
Definition started : System := fires 1 (ngOnInit (newAppComponent world0 0)).

(** The first sample task, renamed 5 ms after the store was built. *)
Definition renamed : Task :=
  mkTask task1 (lit "Learn Rocq")
         (lit "Study the new features and improvements in Angular 18")
         (Some false) 1700000000000 1700000000005.
Definition world4 : World :=
  snd (updateTask task1 (mkUpdate (Some (lit " Learn Rocq ")) None None) 5
         world0).

(** * Properties *)

(** ** Strings *)

Lemma str_eqb_spec (a b : jsstring) : str_eqb a b = true <-> a = b.
Proof.
  revert b; induction a as [|x a IH]; intros [|y b]; simpl;
    try (split; [discriminate | congruence]); try tauto.
  rewrite andb_true_iff, N.eqb_eq, IH. split.
  - intros [-> ->]; reflexivity.
  - intros H; injection H; auto.
Qed.

Lemma str_eqb_refl (a : jsstring) : str_eqb a a = true.
Proof. apply str_eqb_spec; reflexivity. Qed.

Lemma str_eqb_neq (a b : jsstring) : a <> b -> str_eqb a b = false.
Proof.
  intros H. destruct (str_eqb a b) eqn:E; [|reflexivity].
  apply str_eqb_spec in E; contradiction.
Qed.

Lemma trimStart_split (s : jsstring) :
  exists a, s = a ++ trimStart s /\ blank a = true /\ startsClean (trimStart s).
Proof.
  induction s as [|c s (a & E & B & C)]; simpl.
  - exists []; repeat split.
  - destruct (isWhiteSpace c) eqn:W.
    + exists (c :: a); simpl. rewrite W, B, <- E. repeat split; assumption.
    + exists []; simpl. repeat split; assumption.
Qed.

Lemma trimStart_blank (s : jsstring) : trimStart s = [] <-> blank s = true.
Proof.
  induction s as [|c s IH]; simpl; [tauto|].
  destruct (isWhiteSpace c); simpl; [exact IH|].
  split; discriminate.
Qed.

Lemma blank_app (a b : jsstring) : blank (a ++ b) = blank a && blank b.
Proof. apply forallb_app. Qed.

Lemma blank_rev (a : jsstring) : blank (rev a) = blank a.
Proof.
  induction a as [|c a IH]; simpl; [reflexivity|].
  rewrite blank_app, IH; simpl. rewrite andb_true_r, andb_comm; reflexivity.
Qed.

(** [trim] removes white space at both ends and nothing else. *)
Lemma trim_isTrimOf (s : jsstring) : isTrimOf s (trim s).
Proof.
  unfold isTrimOf, trim, trimEnd.
  destruct (trimStart_split s) as (a & Ea & Ba & Ca).
  destruct (trimStart_split (rev (trimStart s))) as (b & Eb & Bb & Cb).
  exists a, (rev b). rewrite rev_involutive.
  assert (E : trimStart s = rev (trimStart (rev (trimStart s))) ++ rev b).
  { rewrite <- rev_app_distr, <- Eb, rev_involutive; reflexivity. }
  repeat split.
  - rewrite <- E; exact Ea.
  - exact Ba.
  - rewrite blank_rev; exact Bb.
  - destruct (rev (trimStart (rev (trimStart s)))) as [|c r] eqn:R;
      [exact I|].
    rewrite E in Ca. exact Ca.
  - exact Cb.
Qed.

Lemma trim_nil_iff (s : jsstring) : trim s = [] <-> blank s = true.
Proof.
  unfold trim, trimEnd. split.
  - intros H. apply (f_equal (@rev _)) in H. rewrite rev_involutive in H.
    simpl in H. apply trimStart_blank in H. rewrite blank_rev in H.
    destruct (trimStart_split s) as (a & E & B & _).
    rewrite E, blank_app, B, H; reflexivity.
  - intros H. apply trimStart_blank in H. rewrite H; reflexivity.
Qed.

Lemma truthy_trim (s : jsstring) : truthy (trim s) = negb (blank s).
Proof.
  destruct (blank s) eqn:B.
  - apply trim_nil_iff in B. rewrite B; reflexivity.
  - destruct (trim s) eqn:T; [|reflexivity].
    apply trim_nil_iff in T. congruence.
Qed.

(** ** Identifiers *)

Lemma lit_inj (a b : string) : lit a = lit b -> a = b.
Proof.
  unfold lit. intros H.
  rewrite <- (string_of_list_ascii_of_string a),
          <- (string_of_list_ascii_of_string b).
  f_equal.
  revert H. generalize (list_ascii_of_string b).
  induction (list_ascii_of_string a) as [|x l IH]; intros [|y l']; simpl;
    try discriminate; [reflexivity|].
  intros H; injection H as Hx Hl. f_equal; [|apply IH; exact Hl].
  rewrite <- (ascii_N_embedding x), <- (ascii_N_embedding y), Hx; reflexivity.
Qed.

Lemma toString_inj (n m : N) : toString n = toString m -> n = m.
Proof.
  unfold toString. intros H. apply lit_inj in H.
  apply (f_equal NilEmpty.uint_of_string) in H.
  rewrite !NilEmpty.usu in H. injection H as H.
  apply DecimalN.Unsigned.to_uint_inj; exact H.
Qed.

Lemma string_of_uint_digits (d : Decimal.uint) :
  forallb isDigit (lit (NilEmpty.string_of_uint d)) = true.
Proof. induction d; simpl; auto. Qed.

Lemma toString_digits (n : N) : forallb isDigit (toString n) = true.
Proof. apply string_of_uint_digits. Qed.

(** A run of digits closed by an underscore is read back in one way only. *)
Lemma digits_prefix_unique (a a' b b' : jsstring) :
  forallb isDigit a = true -> forallb isDigit a' = true ->
  a ++ 95 :: b = a' ++ 95 :: b' -> a = a'.
Proof.
  revert a'. induction a as [|x a IH]; intros [|y a']; simpl; intros Ha Ha' E.
  - reflexivity.
  - injection E as <- _. discriminate Ha'.
  - injection E as -> _. discriminate Ha.
  - apply andb_true_iff in Ha as [_ Ha]. apply andb_true_iff in Ha' as [_ Ha'].
    injection E as -> E. f_equal. apply IH; assumption.
Qed.

(** The counter can be read back from an identifier. *)
Lemma taskIdOf_counter (k t k' t' : N) :
  taskIdOf k t = taskIdOf k' t' -> k = k'.
Proof.
  unfold taskIdOf. intros H. apply app_inv_head in H.
  apply toString_inj.
  apply digits_prefix_unique with (b := toString t) (b' := toString t');
    auto using toString_digits.
Qed.

Lemma issued_mono (n m : N) (i : jsstring) : n <= m -> issued n i -> issued m i.
Proof. intros L (k & t & E & H). exists k, t. split; [exact E | lia]. Qed.

Lemma issued_fresh (n t : N) : ~ issued n (taskIdOf n t).
Proof.
  intros (k & t' & E & H). apply taskIdOf_counter in E. lia.
Qed.

(** ** Arrays *)

Section ArrayFacts.
Context {A : Type} (p : A -> bool).

Lemma findIndex_none (l : list A) :
  findIndex p l = None <-> forall x, In x l -> p x = false.
Proof.
  induction l as [|x l IH]; simpl.
  - split; [intros _ y [] | reflexivity].
  - destruct (p x) eqn:P.
    + split; [discriminate|]. intros H. rewrite (H x) in P by auto.
      discriminate.
    + destruct (findIndex p l) as [[i y]|].
      * split; [discriminate|]. intros H.
        assert (E : Some (i, y) = None) by (apply IH; intros z Hz; apply H; auto).
        discriminate E.
      * split; [|reflexivity]. intros _ z [<-|Hz]; [exact P|].
        apply IH; auto.
Qed.

Lemma findIndex_some (l : list A) (i : nat) (x : A) :
  findIndex p l = Some (i, x) -> nth_error l i = Some x /\ p x = true.
Proof.
  revert i; induction l as [|y l IH]; simpl; intros i; [discriminate|].
  destruct (p y) eqn:P.
  - intros H; injection H as <- <-. auto.
  - destruct (findIndex p l) as [[j z]|]; [|discriminate].
    intros H; injection H as <- <-. simpl. apply IH; reflexivity.
Qed.

(** [find] and [findIndex] stop at the same element. *)
Lemma find_findIndex (l : list A) :
  find p l = option_map snd (findIndex p l).
Proof.
  induction l as [|y l IH]; simpl; [reflexivity|].
  destruct (p y); [reflexivity|].
  rewrite IH. destruct (findIndex p l) as [[j z]|]; reflexivity.
Qed.

Lemma findIndex_assign (l : list A) (i : nat) (x y : A) :
  findIndex p l = Some (i, x) -> p y = true ->
  findIndex p (assign i y l) = Some (i, y).
Proof.
  revert i; induction l as [|z l IH]; simpl; intros i; [discriminate|].
  destruct (p z) eqn:P.
  - intros H; injection H as <- <-. intros Py; simpl. rewrite Py; reflexivity.
  - destruct (findIndex p l) as [[j u]|] eqn:F; [|discriminate].
    intros H; injection H as <- <-. intros Py; simpl. rewrite P.
    rewrite (IH j); auto.
Qed.
End ArrayFacts.

Section ArrayMembers.
Context {A : Type}.

Lemma in_assign (l : list A) (i : nat) (x y : A) :
  In y (assign i x l) -> y = x \/ In y l.
Proof.
  revert i; induction l as [|z l IH]; intros [|i]; simpl; try tauto.
  - intros [<-|H]; auto.
  - intros [<-|H]; auto. destruct (IH _ H); auto.
Qed.

Lemma in_splice1 (l : list A) (i : nat) (y : A) :
  In y (splice1 i l) -> In y l.
Proof.
  revert i; induction l as [|z l IH]; intros [|i]; simpl; try tauto.
  intros [<-|H]; eauto.
Qed.
End ArrayMembers.

Lemma absent_findIndex (taskId : jsstring) (w : World) :
  absent taskId w -> findIndex (hasId taskId) (tasks (service w)) = None.
Proof.
  intros H. apply findIndex_none. intros t Ht.
  apply str_eqb_neq. apply H; exact Ht.
Qed.

Lemma present_findIndex (taskId : jsstring) (w : World) (t : Task) :
  getTaskById taskId w = Some t ->
  exists i, findIndex (hasId taskId) (tasks (service w)) = Some (i, t)
            /\ id t = taskId.
Proof.
  unfold getTaskById. rewrite find_findIndex.
  destruct (findIndex _ _) as [[i x]|] eqn:F; simpl; [|discriminate].
  intros H; injection H as ->. exists i. split; [reflexivity|].
  apply findIndex_some in F as [_ F]. apply str_eqb_spec; exact F.
Qed.

(** ** The store, call by call *)

Lemma createTask_blank (taskData : CreateTaskRequest) (adv : N * N * N)
    (w : World) :
  blank (new_title taskData) = true ->
  createTask taskData adv w = (Err titleRequired, w).
Proof.
  intros B. unfold createTask. rewrite truthy_trim, B; reflexivity.
Qed.

Lemma createTask_eq (taskData : CreateTaskRequest) (a1 a2 a3 : N) (w : World) :
  blank (new_title taskData) = false ->
  let newTask :=
    mkTask (taskIdOf (nextId (service w)) (clock w + a1))
           (trim (new_title taskData)) (trim (new_description taskData))
           (Some false) (clock w + a1 + a2) (clock w + a1 + a2 + a3) in
  createTask taskData (a1, a2, a3) w =
  (Ok newTask,
   mkWorld (mkService (tasks (service w) ++ [newTask])
                      (tasks (service w) ++ [newTask])
                      (nextId (service w) + 1))
           (clock w + a1 + a2 + a3)).
Proof.
  intros B. unfold createTask. rewrite truthy_trim, B; reflexivity.
Qed.

Lemma updateTask_absent (taskId : jsstring) (updates : UpdateTaskRequest)
    (adv : N) (w : World) :
  absent taskId w -> updateTask taskId updates adv w = (Err (notFound taskId), w).
Proof.
  intros H. unfold updateTask. rewrite (absent_findIndex H); reflexivity.
Qed.

Lemma updateTask_eq (taskId : jsstring) (updates : UpdateTaskRequest)
    (adv : N) (w : World) (i : nat) (t : Task) :
  findIndex (hasId taskId) (tasks (service w)) = Some (i, t) ->
  emptyTitle updates = false ->
  let updatedTask := merge t updates (clock w + adv) in
  let l' := assign i updatedTask (tasks (service w)) in
  updateTask taskId updates adv w =
  (Ok updatedTask, mkWorld (mkService l' l' (nextId (service w))) (clock w + adv)).
Proof.
  intros F E. unfold updateTask. rewrite F, E; reflexivity.
Qed.

Lemma updateTask_cases (taskId : jsstring) (updates : UpdateTaskRequest)
    (adv : N) (w : World) :
  snd (updateTask taskId updates adv w) = w \/
  exists i t,
    findIndex (hasId taskId) (tasks (service w)) = Some (i, t) /\
    snd (updateTask taskId updates adv w) =
    let l' := assign i (merge t updates (clock w + adv)) (tasks (service w)) in
    mkWorld (mkService l' l' (nextId (service w))) (clock w + adv).
Proof.
  unfold updateTask.
  destruct (findIndex _ _) as [[i t]|] eqn:F; [|left; reflexivity].
  destruct (emptyTitle updates); [left; reflexivity|].
  right. exists i, t. split; reflexivity.
Qed.

Lemma toggle_is_update (taskId : jsstring) (adv : N) (w : World) :
  snd (toggleTaskCompletion taskId adv w) = w \/
  exists updates,
    snd (toggleTaskCompletion taskId adv w) =
    snd (updateTask taskId updates adv w).
Proof.
  unfold toggleTaskCompletion.
  destruct (find _ _); [right; eauto | left; reflexivity].
Qed.

(** ** What every world of the store satisfies *)

Lemma consistent_create (taskData : CreateTaskRequest) (adv : N * N * N)
    (w : World) :
  consistent w -> consistent (snd (createTask taskData adv w)).
Proof.
  intros [H S]. destruct (blank (new_title taskData)) eqn:B.
  - rewrite createTask_blank by exact B. split; assumption.
  - destruct adv as [[a1 a2] a3]. rewrite createTask_eq by exact B.
    split; [|reflexivity]. cbn [snd service tasks nextId clock].
    apply Forall_app; split.
    + eapply Forall_impl; [|exact H]. cbn beta. intros t (I & C & U).
      repeat split; [eapply issued_mono; [|exact I] | exact C |]; lia.
    + constructor; [|constructor]. cbn [id createdAt updatedAt].
      repeat split; try lia.
      exists (nextId (service w)), (clock w + a1). split; [reflexivity | lia].
Qed.

Lemma consistent_update (taskId : jsstring) (updates : UpdateTaskRequest)
    (adv : N) (w : World) :
  consistent w -> consistent (snd (updateTask taskId updates adv w)).
Proof.
  intros [H S].
  destruct (updateTask_cases taskId updates adv w) as [-> | (i & t & F & ->)];
    [split; assumption|].
  split; [|reflexivity]. cbn [service tasks nextId clock].
  rewrite Forall_forall in H. apply Forall_forall. intros x Hx.
  apply findIndex_some in F as [F _]. apply nth_error_In in F.
  apply in_assign in Hx as [-> | Hx].
  - destruct (H t F) as (I & C & U). cbn [merge id createdAt updatedAt].
    repeat split; [exact I | lia | lia].
  - destruct (H x Hx) as (I & C & U). repeat split; [exact I | exact C | lia].
Qed.

Lemma consistent_delete (taskId : jsstring) (w : World) :
  consistent w -> consistent (snd (deleteTask taskId w)).
Proof.
  intros [H S]. unfold deleteTask.
  destruct (findIndex _ _) as [[i t]|]; [|split; assumption].
  split; [|reflexivity]. cbn [snd commit service tasks nextId clock].
  rewrite Forall_forall in H. apply Forall_forall. intros x Hx.
  apply H. eapply in_splice1; exact Hx.
Qed.

Lemma consistent_step (w w' : World) : step w w' -> consistent w -> consistent w'.
Proof.
  intros [taskData adv w1|taskId updates adv w1|taskId w1|taskId adv w1|adv w1] C.
  - apply consistent_create; exact C.
  - apply consistent_update; exact C.
  - apply consistent_delete; exact C.
  - destruct (toggle_is_update taskId adv w1) as [-> | [u ->]];
      [exact C | apply consistent_update; exact C].
  - destruct C as [H S]. split; [|exact S]. cbn [snd newDate service clock].
    eapply Forall_impl; [|exact H]. cbn beta. intros t (I & Cr & U).
    repeat split; [exact I | exact Cr | lia].
Qed.

Lemma consistent_steps (w w' : World) :
  steps w w' -> consistent w -> consistent w'.
Proof.
  induction 1; intros C; [exact C|].
  eapply consistent_step; [eassumption | auto].
Qed.

Lemma consistent_initialize (reqs : list CreateTaskRequest)
    (advs : nat -> N * N * N) (w : World) :
  consistent w -> consistent (initializeSampleData reqs advs w).
Proof.
  revert advs w. induction reqs as [|r reqs IH]; intros advs w C; simpl;
    [exact C|].
  apply IH. apply consistent_create; exact C.
Qed.

Lemma consistent_reachable (w : World) : reachable w -> consistent w.
Proof.
  intros (t0 & advs & S). eapply consistent_steps; [exact S|].
  apply consistent_initialize. split; [constructor | reflexivity].
Qed.

Lemma step_nextId (w w' : World) :
  step w w' -> nextId (service w) <= nextId (service w').
Proof.
  intros [taskData adv w1|taskId updates adv w1|taskId w1|taskId adv w1|adv w1].
  - destruct (blank (new_title taskData)) eqn:B.
    + rewrite createTask_blank by exact B. simpl; lia.
    + destruct adv as [[a1 a2] a3]. rewrite createTask_eq by exact B.
      simpl; lia.
  - destruct (updateTask_cases taskId updates adv w1) as [-> | (i & t & _ & ->)];
      simpl; lia.
  - unfold deleteTask. destruct (findIndex _ _) as [[i t]|]; simpl; lia.
  - destruct (toggle_is_update taskId adv w1) as [-> | [u ->]]; [lia|].
    destruct (updateTask_cases taskId u adv w1) as [-> | (i & t & _ & ->)];
      simpl; lia.
  - simpl; lia.
Qed.

Lemma steps_nextId (w w' : World) :
  steps w w' -> nextId (service w) <= nextId (service w').
Proof.
  induction 1; [lia|]. apply step_nextId in H0. lia.
Qed.

Lemma createTask_inv (taskData : CreateTaskRequest) (adv : N * N * N)
    (w w' : World) (t : Task) :
  createTask taskData adv w = (Ok t, w') ->
  blank (new_title taskData) = false /\
  (exists ts, id t = taskIdOf (nextId (service w)) ts) /\
  nextId (service w') = nextId (service w) + 1.
Proof.
  destruct (blank (new_title taskData)) eqn:B.
  - rewrite createTask_blank by exact B. discriminate.
  - destruct adv as [[a1 a2] a3]. rewrite createTask_eq by exact B.
    intros H; injection H as <- <-. repeat split. eexists; reflexivity.
Qed.

Lemma reachable_world0 : reachable world0.
Proof. exists 1700000000000, (fun _ => (0, 0, 0)). apply steps_refl. Qed.

Lemma absent_world0 : absent (lit "invalid-id") world0.
Proof. intros t [<-|[<-|[<-|[]]]]; discriminate. Qed.

(** ** The store: creation *)

(** C3, as the code has it.  For a request whose title is not blank once
    trimmed, [createTask] succeeds: the task returned carries the trimmed
    title and description, is not completed, has an identifier that no task
    of the collection carried at any earlier moment, and is appended to the
    collection.  [createdAt] and [updatedAt] come from two successive reads
    of the clock: [createdAt <= updatedAt], with equality when the clock has
    not moved between the two reads. *)
Theorem create_succeeds (taskData : CreateTaskRequest) (a1 a2 a3 : N)
    (before w : World) :
  reachable before -> steps before w ->
  trim (new_title taskData) <> [] ->
  exists newTask w',
    createTask taskData (a1, a2, a3) w = (Ok newTask, w') /\
    title newTask = trim (new_title taskData) /\
    isTrimOf (new_title taskData) (title newTask) /\
    description newTask = trim (new_description taskData) /\
    isTrimOf (new_description taskData) (description newTask) /\
    completed newTask = Some false /\
    (forall t, In t (tasks (service before)) -> id t <> id newTask) /\
    createdAt newTask <= updatedAt newTask /\
    (a3 = 0 -> createdAt newTask = updatedAt newTask) /\
    tasks (service w') = tasks (service w) ++ [newTask].
Proof.
  intros R S T.
  assert (B : blank (new_title taskData) = false).
  { destruct (blank (new_title taskData)) eqn:B; [|reflexivity].
    apply trim_nil_iff in B. contradiction. }
  eexists; eexists. split; [apply createTask_eq; exact B|].
  cbn [title description completed id createdAt updatedAt service tasks].
  repeat split; try apply trim_isTrimOf; try lia.
  intros t Ht E.
  apply consistent_reachable in R. destruct R as [F _].
  rewrite Forall_forall in F. destruct (F t Ht) as (I & _).
  apply steps_nextId in S.
  apply (issued_mono S) in I. rewrite E in I.
  exact (issued_fresh I).
Qed.

Lemma create_succeeds_witness :
  reachable world0 /\ steps world0 world0 /\
  trim (new_title (mkCreate (lit "  A  ") (lit "  B  "))) <> [] /\
  exists newTask w',
    createTask (mkCreate (lit "  A  ") (lit "  B  ")) (0, 0, 0) world0
      = (Ok newTask, w') /\
    title newTask = lit "A" /\ description newTask = lit "B" /\
    createdAt newTask = updatedAt newTask.
Proof.
  split; [exact reachable_world0|].
  split; [apply steps_refl|].
  split; [vm_compute; discriminate|].
  destruct (@create_succeeds (mkCreate (lit "  A  ") (lit "  B  ")) 0 0 0
              world0 world0 reachable_world0 (steps_refl world0))
    as (t & w' & E & Ht & _ & Hd & _ & _ & _ & _ & Hc & _).
  - vm_compute; discriminate.
  - exists t, w'. repeat split; [exact E | exact Ht | exact Hd | auto].
Defined.

(** Against C3 with equal dates: when the clock moves between the two [new Date()]
    of [createTask], [createdAt] and [updatedAt] of the new task differ. *)
Lemma create_dates_may_differ :
  reachable world0 /\
  trim (new_title (mkCreate (lit "A") (lit "B"))) <> [] /\
  exists newTask w',
    createTask (mkCreate (lit "A") (lit "B")) (0, 0, 1) world0
      = (Ok newTask, w') /\
    createdAt newTask = 1700000000000 /\
    updatedAt newTask = 1700000000001 /\
    createdAt newTask <> updatedAt newTask.
Proof.
  split; [exact reachable_world0|].
  split; [vm_compute; discriminate|].
  eexists; eexists. split; [vm_compute; reflexivity|].
  cbn [createdAt updatedAt]. repeat split. discriminate.
Qed.

(** C4.  For a request whose title is empty or white space only,
    [createTask] fails with the error "Task title is required" and leaves the
    store as it was: collection, counter and broadcast value. *)
Theorem create_blank_title_rejected (taskData : CreateTaskRequest)
    (adv : N * N * N) (w : World) :
  blank (new_title taskData) = true ->
  createTask taskData adv w = (Err titleRequired, w) /\
  message titleRequired = lit "Task title is required".
Proof.
  intros B. split; [apply createTask_blank; exact B | reflexivity].
Qed.

Lemma create_blank_title_rejected_witness :
  blank (new_title (mkCreate (lit "   ") (lit "Test Description"))) = true /\
  createTask (mkCreate (lit "   ") (lit "Test Description")) (1, 2, 3) world0
    = (Err titleRequired, world0).
Proof.
  split; [reflexivity|].
  apply (@create_blank_title_rejected
           (mkCreate (lit "   ") (lit "Test Description")) (1, 2, 3) world0).
  reflexivity.
Defined.

(** C8.  Identifiers are never reused: the identifier given by a call of
    [createTask] differs from the one given by any earlier call, whatever
    happened to the store in between (deletions included) and whatever the
    clock showed (the same instant included). *)
Theorem ids_never_reused (d1 d2 : CreateTaskRequest) (adv1 adv2 : N * N * N)
    (w1 w1' w2 w2' : World) (t1 t2 : Task) :
  createTask d1 adv1 w1 = (Ok t1, w1') ->
  steps w1' w2 ->
  createTask d2 adv2 w2 = (Ok t2, w2') ->
  id t1 <> id t2.
Proof.
  intros C1 S C2 E.
  apply createTask_inv in C1 as (_ & (ts1 & I1) & N1).
  apply createTask_inv in C2 as (_ & (ts2 & I2) & _).
  apply steps_nextId in S.
  rewrite I1, I2 in E. apply taskIdOf_counter in E. lia.
Qed.

Lemma ids_never_reused_witness :
  createTask brief (0, 0, 0) world0 = (Ok fourth, world1) /\
  steps world1 world2 /\
  createTask brief (0, 0, 0) world2 = (Ok fifth, world3) /\
  getTaskById task4 world2 = None /\
  createdAt fourth = createdAt fifth /\
  id fourth <> id fifth.
Proof.
  assert (C1 : createTask brief (0, 0, 0) world0 = (Ok fourth, world1))
    by (vm_compute; reflexivity).
  assert (S : steps world1 world2)
    by (eapply steps_next; [apply steps_refl | apply step_delete]).
  assert (C2 : createTask brief (0, 0, 0) world2 = (Ok fifth, world3))
    by (vm_compute; reflexivity).
  repeat split; try assumption; try reflexivity.
  exact (@ids_never_reused _ _ _ _ _ _ _ _ _ _ C1 S C2).
Defined.

(** ** The store: unknown identifiers *)

(** C5.  For an identifier that no task of the collection carries,
    [updateTask], [deleteTask] and [toggleTaskCompletion] all fail with the
    error "Task with ID <id> not found" and leave the store as it was;
    [toggleTaskCompletion] fails with the very error of [updateTask]. *)
Theorem unknown_id_not_found (taskId : jsstring) (updates : UpdateTaskRequest)
    (adv : N) (w : World) :
  absent taskId w ->
  updateTask taskId updates adv w = (Err (notFound taskId), w) /\
  deleteTask taskId w = (Err (notFound taskId), w) /\
  toggleTaskCompletion taskId adv w = (Err (notFound taskId), w) /\
  fst (toggleTaskCompletion taskId adv w) = fst (updateTask taskId updates adv w) /\
  message (notFound taskId) = lit "Task with ID " ++ taskId ++ lit " not found".
Proof.
  intros H.
  assert (U : updateTask taskId updates adv w = (Err (notFound taskId), w))
    by (apply updateTask_absent; exact H).
  assert (T : toggleTaskCompletion taskId adv w = (Err (notFound taskId), w)).
  { unfold toggleTaskCompletion.
    rewrite find_findIndex, (absent_findIndex H); reflexivity. }
  repeat split.
  - exact U.
  - unfold deleteTask. rewrite (absent_findIndex H); reflexivity.
  - exact T.
  - rewrite U, T; reflexivity.
Qed.

Lemma unknown_id_not_found_witness :
  absent (lit "invalid-id") world0 /\
  updateTask (lit "invalid-id") (mkUpdate (Some (lit "Updated Title")) None None)
             7 world0
    = (Err (notFound (lit "invalid-id")), world0) /\
  deleteTask (lit "invalid-id") world0
    = (Err (notFound (lit "invalid-id")), world0) /\
  toggleTaskCompletion (lit "invalid-id") 7 world0
    = (Err (notFound (lit "invalid-id")), world0).
Proof.
  split; [exact absent_world0|].
  destruct (@unknown_id_not_found (lit "invalid-id")
              (mkUpdate (Some (lit "Updated Title")) None None) 7 world0
              absent_world0) as (U & D & T & _).
  repeat split; assumption.
Defined.

(** C10.  In [updateTask] the search for the task comes before the check of
    the title: for an identifier that no task carries, a request with an
    empty or blank title still fails with the not-found error, which is not
    the error of the title check, and the store is left as it was. *)
Theorem not_found_before_title_check (taskId title' : jsstring)
    (description' : option jsstring) (completed' : option flag)
    (adv : N) (w : World) :
  absent taskId w ->
  blank title' = true ->
  updateTask taskId (mkUpdate (Some title') description' completed') adv w
    = (Err (notFound taskId), w) /\
  emptyTitle (mkUpdate (Some title') description' completed') = true /\
  notFound taskId <> titleEmpty.
Proof.
  intros H B. repeat split.
  - apply updateTask_absent; exact H.
  - unfold emptyTitle; simpl. rewrite truthy_trim, B; reflexivity.
  - unfold notFound, titleEmpty. intros E.
    apply (f_equal (fun e => nth_error (message e) 5)) in E. discriminate E.
Qed.

Lemma not_found_before_title_check_witness :
  absent (lit "invalid-id") world0 /\ blank (lit "  ") = true /\
  updateTask (lit "invalid-id") (mkUpdate (Some (lit "  ")) None None) 0 world0
    = (Err (notFound (lit "invalid-id")), world0).
Proof.
  split; [exact absent_world0|]. split; [reflexivity|].
  apply (@not_found_before_title_check (lit "invalid-id") (lit "  ") None None
           0 world0 absent_world0 eq_refl).
Defined.

(** ** The store: updates *)

Lemma updateTask_present (taskId : jsstring) (updates : UpdateTaskRequest)
    (adv : N) (w : World) (old : Task) :
  getTaskById taskId w = Some old ->
  emptyTitle updates = false ->
  exists w',
    updateTask taskId updates adv w = (Ok (merge old updates (clock w + adv)), w')
    /\ getTaskById taskId w' = Some (merge old updates (clock w + adv))
    /\ clock w' = clock w + adv.
Proof.
  intros G E. destruct (present_findIndex _ _ G) as (i & F & I).
  eexists. split; [apply (updateTask_eq _ _ adv _ F E)|].
  split; [|reflexivity].
  unfold getTaskById. cbn [service tasks].
  rewrite find_findIndex.
  erewrite findIndex_assign; [reflexivity | exact F |].
  unfold hasId; cbn [merge id]. rewrite I. apply str_eqb_refl.
Qed.

Lemma toggle_present (taskId : jsstring) (adv : N) (w : World) (t : Task) :
  getTaskById taskId w = Some t ->
  toggleTaskCompletion taskId adv w =
  updateTask taskId
    (mkUpdate None None (Some (Some (negb (holds (completed t)))))) adv w.
Proof.
  unfold getTaskById, toggleTaskCompletion. intros ->; reflexivity.
Qed.

Lemma getTaskById_In (taskId : jsstring) (w : World) (t : Task) :
  getTaskById taskId w = Some t -> In t (tasks (service w)).
Proof.
  intros G. destruct (present_findIndex _ _ G) as (i & F & _).
  apply findIndex_some in F as [F _]. eapply nth_error_In; exact F.
Qed.

(** What [updateTask] returns and stores when it succeeds: a title and a
    description that are absent or [undefined] keep the stored text and a
    title that is given is stored trimmed, as is a description that is not
    blank; [completed] is kept when the request has no such property and is
    otherwise stored as the request holds it; [id] and [createdAt] stay and
    [updatedAt] is the reading of the clock, not before the one it
    replaces. *)
Lemma update_result (taskId : jsstring) (updates : UpdateTaskRequest)
    (adv : N) (w : World) (old : Task) :
  reachable w ->
  getTaskById taskId w = Some old ->
  (forall s, upd_title updates = Some s -> trim s <> []) ->
  exists updatedTask w',
    updateTask taskId updates adv w = (Ok updatedTask, w') /\
    getTaskById taskId w' = Some updatedTask /\
    title updatedTask
      = match upd_title updates with
        | Some s => trim s
        | None => title old
        end /\
    (upd_description updates = None ->
     description updatedTask = description old) /\
    (forall d, upd_description updates = Some d -> blank d = false ->
               description updatedTask = trim d) /\
    completed updatedTask
      = match upd_completed updates with
        | Some v => v
        | None => completed old
        end /\
    id updatedTask = id old /\
    createdAt updatedTask = createdAt old /\
    updatedAt updatedTask = clock w + adv /\
    clock w' = clock w + adv /\
    updatedAt old <= updatedAt updatedTask.
Proof.
  intros R G T.
  assert (E : emptyTitle updates = false).
  { unfold emptyTitle. destruct (upd_title updates) as [s|]; [|reflexivity].
    specialize (T s eq_refl). destruct (trim s); [contradiction | reflexivity]. }
  destruct (updateTask_present _ _ adv _ G E) as (w' & U & G' & Cl).
  exists (merge old updates (clock w + adv)), w'.
  split; [exact U|]. split; [exact G'|].
  cbn [merge title description completed id createdAt updatedAt].
  split.
  { destruct (upd_title updates) as [s|]; [|reflexivity].
    cbn [option_map or_else]. specialize (T s eq_refl).
    destruct (trim s); [contradiction | reflexivity]. }
  split; [intros ->; reflexivity|].
  split.
  { intros d -> B. cbn [option_map or_else]. rewrite truthy_trim, B.
    reflexivity. }
  split; [reflexivity|]. split; [reflexivity|]. split; [reflexivity|].
  split; [reflexivity|]. split; [exact Cl|].
  apply consistent_reachable in R. destruct R as [F _].
  rewrite Forall_forall in F.
  destruct (F old (getTaskById_In _ _ G)) as (_ & _ & L). lia.
Qed.

(** C6, on the code.  An update of the first sample task whose request
    holds [completed: undefined] and nothing else succeeds, and the task
    stored and returned has lost its flag: [completed] is [undefined], not
    the [false] it was.  The spread of the request copies the property, and
    nothing restores the stored value after it, as the lines of [title] and
    [description] do for a text that is [undefined]. *)
Theorem update_undefined_completed_stored :
  reachable world0 /\
  getTaskById task1 world0 = Some first /\
  upd_title flagUndefined = None /\
  exists updatedTask w',
    updateTask task1 flagUndefined 5 world0 = (Ok updatedTask, w') /\
    getTaskById task1 w' = Some updatedTask /\
    completed first = Some false /\
    completed updatedTask = None /\
    completed updatedTask <> completed first /\
    title updatedTask = title first /\
    description updatedTask = description first /\
    updatedAt first <= updatedAt updatedTask.
Proof.
  split; [exact reachable_world0|].
  split; [vm_compute; reflexivity|]. split; [reflexivity|].
  exists unflagged, world5.
  split; [vm_compute; reflexivity|]. split; [vm_compute; reflexivity|].
  cbn [completed title description updatedAt first unflagged].
  repeat split; [discriminate | lia].
Qed.

(** Two calls of [toggleTaskCompletion] in a row on a task of the
    collection both succeed and leave [title], [description], [createdAt]
    and [id] alone; the first stores the negation of the flag read as a
    condition, the second the negation of that, which is the flag the task
    had when that flag was a boolean. *)
Lemma toggle_twice_result (taskId : jsstring) (adv1 adv2 : N) (w : World)
    (t : Task) :
  getTaskById taskId w = Some t ->
  exists t1 w1 t2 w2,
    toggleTaskCompletion taskId adv1 w = (Ok t1, w1) /\
    toggleTaskCompletion taskId adv2 w1 = (Ok t2, w2) /\
    completed t1 = Some (negb (holds (completed t))) /\
    getTaskById taskId w2 = Some t2 /\
    completed t2 = Some (holds (completed t)) /\
    (forall b, completed t = Some b -> completed t2 = completed t) /\
    title t2 = title t /\
    description t2 = description t /\
    createdAt t2 = createdAt t /\
    id t2 = id t.
Proof.
  intros G.
  destruct (updateTask_present taskId
              (mkUpdate None None (Some (Some (negb (holds (completed t))))))
              adv1 w G eq_refl) as (w1 & U1 & G1 & _).
  set (t1 := merge t _ _) in *.
  destruct (updateTask_present taskId
              (mkUpdate None None (Some (Some (negb (holds (completed t1))))))
              adv2 w1 G1 eq_refl) as (w2 & U2 & G2 & _).
  exists t1, w1,
    (merge t1 (mkUpdate None None (Some (Some (negb (holds (completed t1))))))
           (clock w1 + adv2)), w2.
  rewrite (toggle_present _ adv1 _ G), (toggle_present _ adv2 _ G1).
  split; [exact U1|]. split; [exact U2|]. split; [reflexivity|].
  split; [exact G2|].
  cbn [merge completed upd_completed t1 holds title description createdAt id].
  rewrite negb_involutive.
  repeat split. intros b ->. reflexivity.
Qed.

(** C7, on the code.  The first sample task has been through the update of
    C6 and its flag is [undefined].  Two calls of [toggleTaskCompletion] in
    a row both succeed, store [true] and then [false], and so do not bring
    [completed] back to what it was; [title], [description] and
    [createdAt] are as before the first call. *)
Theorem toggle_twice_from_undefined :
  reachable world5 /\
  getTaskById task1 world5 = Some unflagged /\
  completed unflagged = None /\
  exists t1 w1 t2 w2,
    toggleTaskCompletion task1 10 world5 = (Ok t1, w1) /\
    toggleTaskCompletion task1 20 w1 = (Ok t2, w2) /\
    getTaskById task1 w2 = Some t2 /\
    completed t1 = Some true /\
    completed t2 = Some false /\
    completed t2 <> completed unflagged /\
    title t2 = title unflagged /\
    description t2 = description unflagged /\
    createdAt t2 = createdAt unflagged.
Proof.
  split.
  { exists 1700000000000, (fun _ => (0, 0, 0)).
    eapply steps_next; [apply steps_refl|].
    apply (step_update task1 flagUndefined 5). }
  split; [vm_compute; reflexivity|]. split; [reflexivity|].
  eexists; eexists; eexists; eexists.
  split; [vm_compute; reflexivity|]. split; [vm_compute; reflexivity|].
  split; [vm_compute; reflexivity|].
  cbn [completed title description createdAt unflagged].
  repeat split. discriminate.
Qed.

(** C1, on the code.  An update of the first sample task whose only field is
    an empty description succeeds, and the task stored and returned still has
    the description it had: [updates.description?.trim() || existing] takes
    the empty string for an absent value. *)
Theorem update_empty_description_kept :
  getTaskById task1 world0 = Some first /\
  exists updatedTask w',
    updateTask task1 (mkUpdate None (Some []) None) 5 world0
      = (Ok updatedTask, w') /\
    getTaskById task1 w' = Some updatedTask /\
    description updatedTask
      = lit "Study the new features and improvements in Angular 18" /\
    description updatedTask <> [] /\
    title updatedTask = title first /\
    completed updatedTask = completed first.
Proof.
  split; [reflexivity|].
  eexists; eexists. split; [vm_compute; reflexivity|].
  split; [vm_compute; reflexivity|].
  cbn [description title completed first].
  repeat split. discriminate.
Qed.

(** The same for every task and every blank description. *)
Lemma update_blank_description_kept (taskId d : jsstring) (adv : N)
    (w : World) (old : Task) :
  getTaskById taskId w = Some old ->
  blank d = true ->
  exists updatedTask w',
    updateTask taskId (mkUpdate None (Some d) None) adv w = (Ok updatedTask, w')
    /\ description updatedTask = description old.
Proof.
  intros G B.
  destruct (updateTask_present taskId (mkUpdate None (Some d) None) adv w
              G eq_refl) as (w' & U & _).
  eexists; eexists. split; [exact U|].
  cbn [merge description upd_description option_map or_else].
  apply trim_nil_iff in B. rewrite B; reflexivity.
Qed.

(** ** The component: deletion *)

Lemma deleteTask_error (taskId : jsstring) (w w' : World) (error : Error) :
  deleteTask taskId w = (Err error, w') -> error = notFound taskId /\ w' = w.
Proof.
  unfold deleteTask. destruct (findIndex _ _) as [[i t]|]; [discriminate|].
  intros H; injection H as <- <-. split; reflexivity.
Qed.

Lemma in_enqueue (e : N * callback) (q : list (N * callback)) :
  In e (enqueue e q).
Proof.
  induction q as [|x q IH]; simpl; [auto|].
  destruct (fst x <=? fst e); simpl; auto.
Qed.

Lemma enqueue_tie (d : N) (c c' : callback) :
  enqueue (d, c) [(d, c')] = [(d, c'); (d, c)].
Proof. cbn [enqueue fst]. rewrite N.leb_refl. reflexivity. Qed.

Lemma onDeleteTask_refused (taskId : jsstring) (s : System) (error : Error)
    (w' : World) :
  deleteTask taskId (world s) = (Err error, w') ->
  onDeleteTask taskId s =
  handleError (lit "Failed to delete task") error (setWorld w' (clearMessages s)).
Proof.
  intros D. unfold onDeleteTask.
  change (world (clearMessages s)) with (world s). rewrite D. reflexivity.
Qed.

Lemma onDeleteTask_accepted (taskId : jsstring) (s : System) (b : bool)
    (w' : World) :
  deleteTask taskId (world s) = (Ok b, w') ->
  onDeleteTask taskId s =
  schedule 100 (DeleteNext taskId) (emitted (setWorld w' (clearMessages s))).
Proof.
  intros D. unfold onDeleteTask.
  change (world (clearMessages s)) with (world s). rewrite D. reflexivity.
Qed.

(** The confirmation of a deletion, on the component. *)
Lemma deliver_DeleteNext (taskId : jsstring) (s : System) :
  successMessage (app (deliver (DeleteNext taskId) s))
    = lit "Task deleted successfully!" /\
  errorMessage (app (deliver (DeleteNext taskId) s)) = errorMessage (app s) /\
  editingTask (app (deliver (DeleteNext taskId) s))
    = editingAfterDelete taskId (editingTask (app s)) /\
  now (deliver (DeleteNext taskId) s) = now s.
Proof.
  cbn [deliver]. set (s1 := showSuccess _ s).
  assert (Ed : editingTask (app s1) = editingTask (app s)) by reflexivity.
  assert (Es : successMessage (app s1) = lit "Task deleted successfully!")
    by reflexivity.
  assert (Ee : errorMessage (app s1) = errorMessage (app s)) by reflexivity.
  assert (En : now s1 = now s) by reflexivity.
  rewrite <- Ed, <- Ee, <- En. clearbody s1. unfold editingAfterDelete.
  destruct (editingTask (app s1)) as [t|] eqn:T;
    [destruct (str_eqb (id t) taskId)|]; repeat split; assumption.
Qed.

Lemma editingAfterDelete_spec (taskId : jsstring) (t : Task) :
  (editingAfterDelete taskId (Some t) = None <-> id t = taskId) /\
  (id t <> taskId -> editingAfterDelete taskId (Some t) = Some t).
Proof.
  unfold editingAfterDelete. destruct (str_eqb (id t) taskId) eqn:I.
  - apply str_eqb_spec in I. split; [tauto | contradiction].
  - assert (NE : id t <> taskId).
    { intros H. apply str_eqb_spec in H. congruence. }
    split; [split; [discriminate | contradiction] | reflexivity].
Qed.

(** With nothing else pending, the confirmation is what fires next, after
    the snapshot when the component listens to the store. *)
Lemma fires_after_delete (taskId : jsstring) (s : System) (w' : World) :
  queue s = [] ->
  exists s2,
    fires (if listening s then 2 else 1)
      (schedule 100 (DeleteNext taskId) (emitted (setWorld w' (clearMessages s))))
    = deliver (DeleteNext taskId) s2 /\
    now s2 = now s + 100 /\ editingTask (app s2) = editingTask (app s).
Proof.
  destruct s as [w a t q l]. cbn [queue]. intros ->.
  unfold emitted, schedule, setWorld, clearMessages, setApp.
  cbn [listening world app now queue enqueue].
  destruct l; cbn [world app now queue listening enqueue].
  - cbn [fst]. rewrite N.leb_refl.
    cbn [fires fire queue world app now listening].
    eexists. split; [reflexivity|].
    cbn [now deliver setLoading setShown setApp world app queue listening
         editingTask]. split; [lia | reflexivity].
  - cbn [fires fire queue world app now listening].
    eexists. split; [reflexivity|]. cbn [now app editingTask].
    split; [lia | reflexivity].
Qed.

(** C9.  [onDeleteTask] first clears both messages.  When the store refuses
    the deletion, the message of its error becomes the error message at once
    and nothing else changes.  When the store accepts it, the confirmation
    is pending behind the delay of the store; once delivered, the success
    message is "Task deleted successfully!" and the editing reference is
    cleared if it carries the deleted identifier, and is left as it is
    otherwise. *)
Theorem delete_outcome (taskId : jsstring) (s : System) :
  (forall error w',
     deleteTask taskId (world s) = (Err error, w') ->
     let s' := onDeleteTask taskId s in
     errorMessage (app s') = message error /\
     successMessage (app s') = [] /\
     editingTask (app s') = editingTask (app s) /\
     queue s' = queue s /\ world s' = world s) /\
  (forall b w',
     deleteTask taskId (world s) = (Ok b, w') ->
     let s' := onDeleteTask taskId s in
     In (now s + 100, DeleteNext taskId) (queue s') /\
     errorMessage (app s') = [] /\ successMessage (app s') = [] /\
     editingTask (app s') = editingTask (app s) /\ world s' = w') /\
  (forall s2,
     let s3 := deliver (DeleteNext taskId) s2 in
     successMessage (app s3) = lit "Task deleted successfully!" /\
     errorMessage (app s3) = errorMessage (app s2) /\
     editingTask (app s3) = editingAfterDelete taskId (editingTask (app s2)) /\
     (forall t, editingTask (app s2) = Some t ->
        (editingTask (app s3) = None <-> id t = taskId) /\
        (id t <> taskId -> editingTask (app s3) = Some t))) /\
  (forall b w',
     deleteTask taskId (world s) = (Ok b, w') -> queue s = [] ->
     let s3 := fires (if listening s then 2 else 1) (onDeleteTask taskId s) in
     now s3 = now s + 100 /\
     successMessage (app s3) = lit "Task deleted successfully!" /\
     editingTask (app s3) = editingAfterDelete taskId (editingTask (app s))).
Proof.
  split; [|split; [|split]].
  - intros error w' D s'. subst s'. rewrite (@onDeleteTask_refused _ _ _ _ D).
    apply deleteTask_error in D as [-> ->].
    repeat split.
  - intros b w' D s'. subst s'. rewrite (@onDeleteTask_accepted _ _ _ _ D).
    destruct s as [w a t q l].
    unfold emitted, schedule, setWorld, clearMessages, setApp.
    cbn [listening world app now queue].
    destruct l; cbn [world app now queue listening errorMessage
                     successMessage editingTask];
      repeat split; apply in_enqueue.
  - intros s2 s3. subst s3.
    destruct (deliver_DeleteNext taskId s2) as (S & E & D & _).
    split; [exact S|]. split; [exact E|]. split; [exact D|].
    intros t T. rewrite D, T. apply editingAfterDelete_spec.
  - intros b w' D Q s3. subst s3. rewrite (@onDeleteTask_accepted _ _ _ _ D).
    destruct (@fires_after_delete taskId s w' Q) as (s2 & -> & N & E).
    destruct (deliver_DeleteNext taskId s2) as (S & _ & D' & N').
    rewrite N', N, D', E. repeat split. exact S.
Qed.

Lemma delete_outcome_witness :
  queue editingFirst = [] /\
  editingTask (app editingFirst) = Some first /\
  editingTask (app (fires 2 (onDeleteTask task1 editingFirst))) = None /\
  editingTask (app (fires 2 (onDeleteTask task2 editingFirst))) = Some first /\
  errorMessage (app (onDeleteTask (lit "invalid-id") editingFirst))
    = lit "Task with ID invalid-id not found".
Proof.
  assert (Q : queue editingFirst = []) by (vm_compute; reflexivity).
  assert (D1 : deleteTask task1 (world editingFirst)
               = (Ok true, snd (deleteTask task1 world0)))
    by (vm_compute; reflexivity).
  assert (D2 : deleteTask task2 (world editingFirst)
               = (Ok true, snd (deleteTask task2 world0)))
    by (vm_compute; reflexivity).
  assert (D3 : deleteTask (lit "invalid-id") (world editingFirst)
               = (Err (notFound (lit "invalid-id")), world0))
    by (vm_compute; reflexivity).
  destruct (delete_outcome task1 editingFirst) as (_ & _ & _ & A).
  destruct (delete_outcome task2 editingFirst) as (_ & _ & _ & B).
  destruct (delete_outcome (lit "invalid-id") editingFirst) as (C & _).
  destruct (A _ _ D1 Q) as (_ & _ & A').
  destruct (B _ _ D2 Q) as (_ & _ & B').
  destruct (C _ _ D3) as (C' & _).
  assert (L : listening editingFirst = true) by (vm_compute; reflexivity).
  rewrite L in A', B'.
  split; [exact Q|]. split; [vm_compute; reflexivity|].
  split; [rewrite A'; vm_compute; reflexivity|].
  split; [rewrite B'; vm_compute; reflexivity|].
  rewrite C'. vm_compute; reflexivity.
Defined.

(** ** The component: success messages and teardown *)

Lemma untilDestroy_false (c : callback) :
  untilDestroy c = false <-> c = ClearSuccess.
Proof. destruct c; simpl; split; congruence. Qed.

Lemma onlyTimers_destroy (s : System) : onlyTimers (queue (ngOnDestroy s)).
Proof.
  unfold onlyTimers, ngOnDestroy; cbn [queue].
  apply Forall_forall. intros e He. apply filter_In in He as [_ He].
  apply untilDestroy_false. apply negb_true_iff; exact He.
Qed.

(** With timers only in the queue, whatever fires leaves the store and the
    component alone, the success message apart, which it can only empty. *)
Lemma fires_onlyTimers (n : nat) (s : System) :
  onlyTimers (queue s) ->
  sameButSuccess (app (fires n s)) (app s) /\
  world (fires n s) = world s /\
  listening (fires n s) = listening s /\
  onlyTimers (queue (fires n s)) /\
  (successMessage (app (fires n s)) = successMessage (app s) \/
   successMessage (app (fires n s)) = []).
Proof.
  revert s. induction n as [|n IH]; intros s Q; cbn [fires].
  - repeat split; auto.
  - unfold fire. destruct s as [w a t q l]. cbn [queue] in *.
    destruct q as [|[d c] q]; [repeat split; auto|].
    inversion Q as [|e q' Hc Hq]; subst. cbn [snd] in Hc. subst c.
    cbn [world app now listening deliver setApp].
    match goal with |- context [fires n ?x] => destruct (IH x Hq) as
        ((A1 & A2 & A3 & A4 & A5) & W & L & O & M) end.
    cbn [app world listening shownTasks editingTask isLoading isSubmitting
         errorMessage successMessage] in *.
    repeat split; try assumption.
    right. destruct M as [M|M]; exact M.
Qed.

(** C2, as the code has it.  [showSuccess] sets the success message and
    starts a timer of 3000 ms; with nothing else pending, the message is
    emptied when that timer fires, 3000 ms later.  The timer is never
    cancelled: [ngOnDestroy] ends the subscriptions (what the store has yet to
    deliver is dropped) and keeps every pending timer.  From teardown on,
    whatever fires changes neither the store nor the component, the success
    message apart, which a timer that fires empties. *)
Theorem success_timer_and_teardown (msg : jsstring) (s : System) :
  (successMessage (app (showSuccess msg s)) = msg /\
   In (now s + 3000, ClearSuccess) (queue (showSuccess msg s))) /\
  (queue s = [] ->
   exists s', fire (showSuccess msg s) = Some s' /\
              now s' = now s + 3000 /\
              successMessage (app s') = [] /\
              sameButSuccess (app s') (app s) /\
              queue s' = []) /\
  (forall e, In e (queue (ngOnDestroy s)) <->
             In e (queue s) /\ snd e = ClearSuccess) /\
  listening (ngOnDestroy s) = false /\
  app (ngOnDestroy s) = app s /\
  forall n,
    sameButSuccess (app (fires n (ngOnDestroy s))) (app s) /\
    world (fires n (ngOnDestroy s)) = world s /\
    listening (fires n (ngOnDestroy s)) = false /\
    (successMessage (app (fires n (ngOnDestroy s))) = successMessage (app s) \/
     successMessage (app (fires n (ngOnDestroy s))) = []).
Proof.
  split; [|split; [|split; [|split; [|split]]]].
  - split; [reflexivity|]. apply in_enqueue.
  - intros Q. destruct s as [w a t q l]. cbn in Q; subst q.
    eexists. split; [reflexivity|].
    cbn -[N.add N.max]. repeat split. lia.
  - intros e. unfold ngOnDestroy; cbn [queue]. rewrite filter_In.
    rewrite negb_true_iff, untilDestroy_false. reflexivity.
  - reflexivity.
  - reflexivity.
  - intros n.
    destruct (@fires_onlyTimers n _ (onlyTimers_destroy s))
      as (A & W & L & _ & M).
    repeat split; try apply A; assumption.
Qed.

Lemma success_timer_and_teardown_witness :
  queue afterDelete = [(3200, ClearSuccess)] /\
  queue (ngOnDestroy afterDelete) = [(3200, ClearSuccess)] /\
  shownTasks (app (fires 1 (ngOnDestroy afterDelete)))
    = shownTasks (app afterDelete) /\
  world (fires 1 (ngOnDestroy afterDelete)) = world afterDelete.
Proof.
  destruct (success_timer_and_teardown [] afterDelete)
    as (_ & _ & _ & _ & _ & H).
  destruct (H 1%nat) as ((A & _) & W & _).
  split; [vm_compute; reflexivity|]. split; [vm_compute; reflexivity|].
  split; [exact A | exact W].
Defined.

(** Against C2 with cancelled timers.  The timer of a success message is still pending
    after [ngOnDestroy], and when it fires the component changes: the success
    message goes from "Task deleted successfully!" to the empty string. *)
Lemma timer_survives_teardown :
  queue (ngOnDestroy afterDelete) = [(3200, ClearSuccess)] /\
  successMessage (app (ngOnDestroy afterDelete))
    = lit "Task deleted successfully!" /\
  exists s', fire (ngOnDestroy afterDelete) = Some s' /\
             now s' = 3200 /\
             successMessage (app s') = [] /\
             app s' <> app (ngOnDestroy afterDelete).
Proof.
  split; [vm_compute; reflexivity|]. split; [vm_compute; reflexivity|].
  eexists. split; [vm_compute; reflexivity|].
  cbn [now app successMessage]. split; [reflexivity|]. split; [reflexivity|].
  intros E. apply (f_equal successMessage) in E. vm_compute in E.
  discriminate E.
Qed.

(** A newer message does not get its 3000 ms either: shown at 300, the
    message of the toggle is emptied at 3200 by the timer of the message it
    replaced. *)
Lemma older_timer_clears_newer_message :
  now afterToggle = 300 /\
  successMessage (app afterToggle) = lit "Task marked as completed!" /\
  queue afterToggle = [(3200, ClearSuccess); (3300, ClearSuccess)] /\
  exists s', fire afterToggle = Some s' /\ now s' = 3200 /\
             successMessage (app s') = [].
Proof.
  split; [vm_compute; reflexivity|]. split; [vm_compute; reflexivity|].
  split; [vm_compute; reflexivity|].
  eexists. split; [vm_compute; reflexivity|].
  cbn [now app successMessage]. split; reflexivity.
Qed.

(** * Further properties *)

(** ** Arrays, continued *)

Section ArrayUpdates.
Context {A B : Type} (f : A -> B).

Lemma map_assign_same (l : list A) (i : nat) (x y : A) :
  nth_error l i = Some y -> f x = f y -> map f (assign i x l) = map f l.
Proof.
  revert i; induction l as [|z l IH]; intros [|i]; simpl; try discriminate.
  - intros H E; injection H as ->. rewrite E; reflexivity.
  - intros H E. rewrite (IH i H E); reflexivity.
Qed.

Lemma map_splice1 (l : list A) (i : nat) :
  map f (splice1 i l) = splice1 i (map f l).
Proof.
  revert i; induction l as [|z l IH]; intros [|i]; simpl; try reflexivity.
  rewrite IH; reflexivity.
Qed.

Lemma length_assign (l : list A) (i : nat) (x : A) :
  List.length (assign i x l) = List.length l.
Proof.
  revert i; induction l as [|z l IH]; intros [|i]; simpl; try reflexivity.
  rewrite IH; reflexivity.
Qed.

Lemma length_splice1 (l : list A) (i : nat) (y : A) :
  nth_error l i = Some y -> S (List.length (splice1 i l)) = List.length l.
Proof.
  revert i; induction l as [|z l IH]; intros [|i]; simpl; try discriminate.
  - reflexivity.
  - intros H. rewrite (IH i H); reflexivity.
Qed.
End ArrayUpdates.

Lemma NoDup_splice1 (B : Type) (l : list B) (i : nat) :
  NoDup l -> NoDup (splice1 i l).
Proof.
  revert i; induction l as [|z l IH]; intros [|i] H; simpl; try exact H.
  - inversion H; assumption.
  - inversion H as [|? ? N D]; subst. constructor; [|apply IH; exact D].
    intros I. apply N. eapply in_splice1; exact I.
Qed.

Section Lookups.
Context {A : Type} (p : A -> bool).

(** Writing at an index an element the search does not want, over one it did
    not want either, does not change the search. *)
Lemma find_assign_other (l : list A) (i : nat) (x y : A) :
  nth_error l i = Some y -> p x = false -> p y = false ->
  find p (assign i x l) = find p l.
Proof.
  revert i; induction l as [|z l IH]; intros [|i]; simpl; try discriminate.
  - intros H Px Py; injection H as ->. rewrite Px, Py; reflexivity.
  - intros H Px Py. rewrite (IH i H Px Py); reflexivity.
Qed.

Lemma find_splice1_other (l : list A) (i : nat) (y : A) :
  nth_error l i = Some y -> p y = false ->
  find p (splice1 i l) = find p l.
Proof.
  revert i; induction l as [|z l IH]; intros [|i]; simpl; try discriminate.
  - intros H Py; injection H as ->. rewrite Py; reflexivity.
  - intros H Py. rewrite (IH i H Py); reflexivity.
Qed.

Lemma find_app_last (l : list A) (x : A) :
  find p (l ++ [x]) =
  match find p l with
  | Some y => Some y
  | None => if p x then Some x else None
  end.
Proof.
  induction l as [|z l IH]; simpl; [reflexivity|].
  destruct (p z); [reflexivity | exact IH].
Qed.

Lemma find_none_iff (l : list A) :
  find p l = None <-> forall x, In x l -> p x = false.
Proof.
  split; [intros H x; apply (find_none p l H)|].
  induction l as [|z l IH]; simpl; intros H; [reflexivity|].
  rewrite (H z) by auto. apply IH. intros x Hx; apply H; auto.
Qed.
End Lookups.

(** Once the first task carrying an identifier is spliced out of a
    collection without duplicate identifiers, none carries it. *)
Lemma splice1_removes_id (taskId : jsstring) (l : list Task) (i : nat)
    (old : Task) :
  NoDup (map id l) ->
  findIndex (hasId taskId) l = Some (i, old) ->
  forall t, In t (splice1 i l) -> id t <> taskId.
Proof.
  revert i; induction l as [|z l IH]; intros i N F; simpl in F; [discriminate|].
  inversion N as [|? ? Nz Nl]; subst.
  destruct (hasId taskId z) eqn:Z.
  - injection F as <- <-. simpl. intros t Ht E.
    apply str_eqb_spec in Z. apply Nz. rewrite Z, <- E.
    apply in_map; exact Ht.
  - destruct (findIndex (hasId taskId) l) as [[j u]|] eqn:G; [|discriminate].
    injection F as <- <-. simpl. intros t [<-|Ht] E.
    + unfold hasId in Z. rewrite E, str_eqb_refl in Z. discriminate.
    + exact (IH j Nl eq_refl t Ht E).
Qed.

(** ** What a call does to the store *)

Lemma step_change (w w' : World) : step w w' -> change w w'.
Proof.
  assert (U : forall v taskId updates adv,
             change v (snd (updateTask taskId updates adv v))).
  { intros v taskId updates adv. unfold updateTask.
    destruct (findIndex _ _) as [[i old]|] eqn:F;
      [|apply change_none; [reflexivity | cbn; lia]].
    destruct (emptyTitle updates) eqn:E;
      [apply change_none; [reflexivity | cbn; lia]|].
    eapply change_updated; [exact F | exact E | reflexivity]. }
  intros [taskData adv w1|taskId updates adv w1|taskId w1|taskId adv w1|adv w1].
  - destruct (blank (new_title taskData)) eqn:B.
    + rewrite createTask_blank by exact B.
      apply change_none; [reflexivity | cbn; lia].
    + destruct adv as [[a1 a2] a3].
      rewrite createTask_eq by exact B. cbn [snd].
      apply change_created with (taskData := taskData) (a1 := a1) (a2 := a2)
                                (a3 := a3); [exact B | reflexivity].
  - apply U.
  - unfold deleteTask. destruct (findIndex _ _) as [[i old]|] eqn:F;
      [|apply change_none; [reflexivity | cbn; lia]].
    eapply change_deleted; [exact F | reflexivity].
  - unfold toggleTaskCompletion.
    destruct (find _ _); [apply U | apply change_none; [reflexivity | cbn; lia]].
  - apply change_none; [reflexivity | cbn; lia].
Qed.

Lemma createTask_taskFor (taskData : CreateTaskRequest) (a1 a2 a3 : N)
    (w : World) :
  blank (new_title taskData) = false ->
  createTask taskData (a1, a2, a3) w =
  (Ok (taskFor taskData a1 a2 a3 w),
   mkWorld (mkService (tasks (service w) ++ [taskFor taskData a1 a2 a3 w])
                      (tasks (service w) ++ [taskFor taskData a1 a2 a3 w])
                      (nextId (service w) + 1))
           (clock w + a1 + a2 + a3)).
Proof. intros B. apply createTask_eq; exact B. Qed.

Lemma NoDup_snoc (B : Type) (l : list B) (x : B) :
  NoDup l -> ~ In x l -> NoDup (l ++ [x]).
Proof.
  induction l as [|z l IH]; simpl; intros N I; [repeat constructor; auto|].
  inversion N as [|? ? Nz Nl]; subst. constructor.
  - rewrite in_app_iff. simpl. intros [H|[H|[]]]; [auto | subst; auto].
  - apply IH; auto.
Qed.

Lemma cleanTitle_trim (s : jsstring) (t : Task) :
  blank s = false -> title t = trim s -> cleanTitle t.
Proof.
  intros B E. unfold cleanTitle. rewrite E.
  destruct (trim_isTrimOf s) as (a & b & _ & _ & _ & C1 & C2).
  repeat split; [|exact C1 | exact C2].
  intros T. apply trim_nil_iff in T. congruence.
Qed.

Lemma cleanTitle_merge (old : Task) (updates : UpdateTaskRequest) (now : N) :
  cleanTitle old -> cleanTitle (merge old updates now).
Proof.
  intros C. destruct (upd_title updates) as [s|] eqn:U.
  - destruct (blank s) eqn:B.
    + unfold cleanTitle, merge; cbn [title]. rewrite U; cbn [option_map or_else].
      apply trim_nil_iff in B. rewrite B. exact C.
    + apply cleanTitle_trim with (s := s); [exact B|].
      unfold merge; cbn [title]. rewrite U; cbn [option_map or_else].
      rewrite truthy_trim, B. reflexivity.
  - unfold cleanTitle, merge; cbn [title]. rewrite U. exact C.
Qed.

Lemma sound_step (w w' : World) : step w w' -> sound w -> sound w'.
Proof.
  intros S (C & N & T).
  split; [eapply consistent_step; eassumption|].
  apply step_change in S.
  destruct S as [E _|taskData a1 a2 a3 B ->|taskId updates adv i old F E ->
                |taskId i old F ->]; cbn [service tasks commit].
  - rewrite E. split; assumption.
  - split.
    + rewrite map_app. apply NoDup_snoc; [exact N|]. cbn [map taskFor id].
      intros I. apply in_map_iff in I as (t0 & E0 & I0).
      destruct C as [F _]. rewrite Forall_forall in F.
      destruct (F t0 I0) as (Is & _). rewrite E0 in Is.
      exact (issued_fresh Is).
    + apply Forall_app; split; [exact T|]. constructor; [|constructor].
      apply cleanTitle_trim with (s := new_title taskData); [exact B|].
      reflexivity.
  - apply findIndex_some in F as [F _]. split.
    + rewrite (map_assign_same id _ _ (merge old updates (clock w + adv)) F);
        [exact N | reflexivity].
    + rewrite Forall_forall in T. apply Forall_forall. intros x Hx.
      apply in_assign in Hx as [-> | Hx]; [|apply T; exact Hx].
      apply cleanTitle_merge. apply T. eapply nth_error_In; exact F.
  - split.
    + rewrite map_splice1. apply NoDup_splice1; exact N.
    + rewrite Forall_forall in T. apply Forall_forall. intros x Hx.
      apply T. eapply in_splice1; exact Hx.
Qed.

Lemma sound_steps (w w' : World) : steps w w' -> sound w -> sound w'.
Proof.
  induction 1; intros C; [exact C|].
  eapply sound_step; [eassumption | auto].
Qed.

Lemma sound_initialize (reqs : list CreateTaskRequest)
    (advs : nat -> N * N * N) (w : World) :
  sound w -> sound (initializeSampleData reqs advs w).
Proof.
  revert advs w. induction reqs as [|r reqs IH]; intros advs w C; simpl;
    [exact C|].
  apply IH. eapply sound_step; [apply step_create | exact C].
Qed.

Lemma sound_reachable (w : World) : reachable w -> sound w.
Proof.
  intros (t0 & advs & S). eapply sound_steps; [exact S|].
  apply sound_initialize.
  split; [split; [constructor | reflexivity]|]. split; constructor.
Qed.

Lemma reachable_steps (w w' : World) : reachable w -> steps w w' -> reachable w'.
Proof.
  intros (t0 & advs & S) S'. exists t0, advs.
  induction S' as [|w w1 w2 S1 IH St]; [exact S|].
  eapply steps_next; [apply IH; exact S | exact St].
Qed.

Lemma reachable_world3 : reachable world3.
Proof.
  apply reachable_steps with (w := world0); [exact reachable_world0|].
  eapply steps_next; [|apply step_create].
  eapply steps_next; [|apply step_delete].
  eapply steps_next; [apply steps_refl | apply step_create].
Qed.

Lemma reachable_world4 : reachable world4.
Proof.
  apply reachable_steps with (w := world0); [exact reachable_world0|].
  eapply steps_next; [apply steps_refl | apply step_update].
Qed.

(** ** The store: what holds of every collection *)

(** X1.  In every world of a store, no two tasks of the collection carry
    the same identifier. *)
Theorem collection_ids_unique (w : World) :
  reachable w -> NoDup (map id (tasks (service w))).
Proof. intros R. apply sound_reachable in R. apply R. Qed.

Lemma collection_ids_unique_witness :
  reachable world3 /\ NoDup (map id (tasks (service world3))).
Proof.
  split; [exact reachable_world3|].
  apply (@collection_ids_unique world3 reachable_world3).
Defined.

(** X2.  In every world of a store, the title of every task of the
    collection is not empty and has no white space at either end. *)
Theorem stored_titles_clean (w : World) (t : Task) :
  reachable w -> In t (tasks (service w)) ->
  title t <> [] /\ trim (title t) <> [] /\
  startsClean (title t) /\ startsClean (rev (title t)).
Proof.
  intros R I. apply sound_reachable in R. destruct R as (_ & _ & T).
  rewrite Forall_forall in T. destruct (T t I) as (E & C1 & C2).
  repeat split; try assumption.
  intros B. apply trim_nil_iff in B.
  destruct (title t) as [|c s]; [congruence|].
  cbn [startsClean] in C1. cbn [blank forallb] in B.
  rewrite C1 in B. discriminate B.
Qed.

Lemma stored_titles_clean_witness :
  reachable world4 /\ In renamed (tasks (service world4)) /\
  title renamed <> [] /\ trim (title renamed) <> [].
Proof.
  assert (I : In renamed (tasks (service world4))) by (left; reflexivity).
  split; [exact reachable_world4|]. split; [exact I|].
  destruct (@stored_titles_clean world4 renamed reachable_world4 I)
    as (A & B & _).
  split; assumption.
Defined.

(** X3.  In every world of a store, every task of the collection was
    created no later than it was last updated, and last updated no later
    than the clock shows. *)
Theorem stored_dates_ordered (w : World) (t : Task) :
  reachable w -> In t (tasks (service w)) ->
  createdAt t <= updatedAt t /\ updatedAt t <= clock w.
Proof.
  intros R I. apply consistent_reachable in R. destruct R as [F _].
  rewrite Forall_forall in F. destruct (F t I) as (_ & A & B). split; assumption.
Qed.

Lemma stored_dates_ordered_witness :
  reachable world4 /\ In renamed (tasks (service world4)) /\
  createdAt renamed <= updatedAt renamed /\ updatedAt renamed <= clock world4.
Proof.
  assert (I : In renamed (tasks (service world4))) by (left; reflexivity).
  split; [exact reachable_world4|]. split; [exact I|].
  apply (@stored_dates_ordered world4 renamed reachable_world4 I).
Defined.

(** X4.  In every world of a store, the value the BehaviorSubject holds,
    which a new subscriber of [getTasks()] receives, is the collection. *)
Theorem subject_holds_collection (w : World) :
  reachable w -> tasksSubject (service w) = tasks (service w).
Proof. intros R. apply consistent_reachable in R. apply R. Qed.

Lemma subject_holds_collection_witness :
  reachable world3 /\ tasksSubject (service world3) = tasks (service world3).
Proof.
  split; [exact reachable_world3|].
  apply (@subject_holds_collection world3 reachable_world3).
Defined.

(** ** The store: lookups *)

Lemma lookup_absent_aux (taskId : jsstring) (w : World) :
  absent taskId w -> getTaskById taskId w = None.
Proof.
  intros H. unfold getTaskById. apply find_none_iff. intros t I.
  apply str_eqb_neq. apply H; exact I.
Qed.

(** X5.  [getTaskById] answers with a task of the collection that carries
    the identifier asked for, and with [null] exactly when no task of the
    collection carries it. *)
Theorem lookup_sound_complete (taskId : jsstring) (w : World) :
  (forall t, getTaskById taskId w = Some t ->
             In t (tasks (service w)) /\ id t = taskId) /\
  (getTaskById taskId w = None <-> absent taskId w).
Proof.
  split.
  - intros t G. split; [exact (getTaskById_In _ _ G)|].
    destruct (present_findIndex _ _ G) as (i & _ & E). exact E.
  - unfold getTaskById, absent. rewrite find_none_iff. split.
    + intros H t I E. specialize (H t I). unfold hasId in H.
      rewrite E, str_eqb_refl in H. discriminate H.
    + intros H t I. apply str_eqb_neq. apply H; exact I.
Qed.

(** X6.  An answer of [getTasksByStatus] holds exactly the tasks of the
    snapshot whose [completed] is the boolean asked for.  A task is in at
    most one of the two answers, and the completed and the pending tasks
    together are as many as the snapshot has tasks whose flag is a boolean:
    all of them when no flag is [undefined]. *)
Theorem status_filter_splits (snapshot : list Task) :
  (forall c t, In t (getTasksByStatus c snapshot) <->
               In t snapshot /\ completed t = Some c) /\
  (List.length (getTasksByStatus true snapshot)
   + List.length (getTasksByStatus false snapshot)
   + List.length (filter (fun t => negb (is_boolean (completed t) true)
                                   && negb (is_boolean (completed t) false))
                         snapshot)
   = List.length snapshot)%nat /\
  ((forall t, In t snapshot -> completed t <> None) ->
   (List.length (getTasksByStatus true snapshot)
    + List.length (getTasksByStatus false snapshot)
    = List.length snapshot)%nat).
Proof.
  split; [|split].
  - intros c t. unfold getTasksByStatus. rewrite filter_In.
    destruct (completed t) as [b|]; cbn [is_boolean].
    + rewrite Bool.eqb_true_iff. split; intros [I E]; split; congruence.
    + split; intros [I E]; discriminate E.
  - unfold getTasksByStatus. induction snapshot as [|t l IH]; simpl;
      [reflexivity|].
    destruct (completed t) as [[|]|]; simpl; lia.
  - unfold getTasksByStatus. induction snapshot as [|t l IH]; simpl;
      intros H; [reflexivity|].
    assert (IH' := IH (fun x Hx => H x (or_intror Hx))).
    assert (Ht := H t (or_introl eq_refl)).
    destruct (completed t) as [[|]|]; simpl; [lia | lia | contradiction].
Qed.

(** ** The store: what each call changes *)

Lemma hasId_other (taskId other : jsstring) (t : Task) :
  id t = taskId -> other <> taskId -> hasId other t = false.
Proof.
  intros E N. unfold hasId. apply str_eqb_neq. congruence.
Qed.

Lemma update_blank_title_aux (taskId title' : jsstring)
    (description' : option jsstring) (completed' : option flag) (adv : N)
    (w : World) (old : Task) :
  getTaskById taskId w = Some old ->
  blank title' = true ->
  updateTask taskId (mkUpdate (Some title') description' completed') adv w
    = (Err titleEmpty, w).
Proof.
  intros G B.
  destruct (present_findIndex _ _ G) as (i & F & _).
  unfold updateTask. rewrite F.
  unfold emptyTitle; cbn [upd_title]. rewrite truthy_trim, B. reflexivity.
Qed.

(** X7.  [updateTask] on a task of the collection with an empty or blank
    title fails with the error "Task title cannot be empty" and leaves the
    store as it was. *)
Theorem update_blank_title_rejected (taskId title' : jsstring)
    (description' : option jsstring) (completed' : option flag) (adv : N)
    (w : World) (old : Task) :
  getTaskById taskId w = Some old ->
  blank title' = true ->
  updateTask taskId (mkUpdate (Some title') description' completed') adv w
    = (Err titleEmpty, w) /\
  message titleEmpty = lit "Task title cannot be empty".
Proof.
  intros G B. split; [|reflexivity].
  apply update_blank_title_aux with (old := old); assumption.
Qed.

Lemma update_blank_title_rejected_witness :
  getTaskById task1 world0 = Some first /\ blank [] = true /\
  updateTask task1 (mkUpdate (Some []) None None) 9 world0
    = (Err titleEmpty, world0).
Proof.
  assert (G : getTaskById task1 world0 = Some first)
    by (vm_compute; reflexivity).
  split; [exact G|]. split; [reflexivity|].
  apply (@update_blank_title_rejected task1 [] None None 9 world0 first G
           eq_refl).
Defined.

(** X8.  [updateTask] with a title and a description that are not blank
    stores and returns the task with both trimmed, and with the completion
    flag of the request when it has one. *)
Theorem update_stores_trimmed (taskId title' description' : jsstring)
    (completed' : option flag) (adv : N) (w : World) (old : Task) :
  getTaskById taskId w = Some old ->
  blank title' = false -> blank description' = false ->
  exists updatedTask w',
    updateTask taskId
      (mkUpdate (Some title') (Some description') completed') adv w
      = (Ok updatedTask, w') /\
    getTaskById taskId w' = Some updatedTask /\
    title updatedTask = trim title' /\
    description updatedTask = trim description' /\
    (forall c : bool, completed' = Some (Some c) ->
                      completed updatedTask = Some c) /\
    updatedAt updatedTask = clock w + adv /\
    clock w' = clock w + adv.
Proof.
  intros G Bt Bd.
  assert (E : emptyTitle (mkUpdate (Some title') (Some description') completed')
              = false).
  { unfold emptyTitle; cbn [upd_title]. rewrite truthy_trim, Bt. reflexivity. }
  destruct (updateTask_present _ _ adv _ G E) as (w' & U & G' & Cl).
  eexists; exists w'. split; [exact U|]. split; [exact G'|].
  cbn [merge title description completed updatedAt upd_title upd_description
       upd_completed option_map or_else].
  rewrite !truthy_trim, Bt, Bd. cbn [negb].
  repeat split; try assumption.
  intros c ->. reflexivity.
Qed.

Lemma update_stores_trimmed_witness :
  getTaskById task1 world0 = Some first /\
  exists updatedTask w',
    updateTask task1
      (mkUpdate (Some (lit "  Updated Title ")) (Some (lit " Updated  "))
                (Some (Some true))) 3 world0 = (Ok updatedTask, w') /\
    title updatedTask = trim (lit "  Updated Title ") /\
    description updatedTask = trim (lit " Updated  ") /\
    completed updatedTask = Some true.
Proof.
  assert (G : getTaskById task1 world0 = Some first)
    by (vm_compute; reflexivity).
  split; [exact G|].
  destruct (@update_stores_trimmed task1 (lit "  Updated Title ")
              (lit " Updated  ") (Some (Some true)) 3 world0 first G eq_refl
              eq_refl)
    as (u & w' & U & _ & T & D & C & _).
  exists u, w'. split; [exact U|]. split; [exact T|]. split; [exact D|].
  apply C; reflexivity.
Defined.

(** X9.  [updateTask] and [toggleTaskCompletion], whether they succeed or
    fail, leave every task with another identifier as it was, and never
    change the number of tasks nor the counter of identifiers. *)
Theorem update_leaves_others (taskId other : jsstring)
    (updates : UpdateTaskRequest) (adv : N) (w : World) :
  other <> taskId ->
  let wu := snd (updateTask taskId updates adv w) in
  let wt := snd (toggleTaskCompletion taskId adv w) in
  getTaskById other wu = getTaskById other w /\
  List.length (tasks (service wu)) = List.length (tasks (service w)) /\
  nextId (service wu) = nextId (service w) /\
  getTaskById other wt = getTaskById other w /\
  List.length (tasks (service wt)) = List.length (tasks (service w)) /\
  nextId (service wt) = nextId (service w).
Proof.
  intros N.
  assert (U : forall u,
             getTaskById other (snd (updateTask taskId u adv w))
               = getTaskById other w /\
             List.length (tasks (service (snd (updateTask taskId u adv w))))
               = List.length (tasks (service w)) /\
             nextId (service (snd (updateTask taskId u adv w)))
               = nextId (service w)).
  { intros u.
    destruct (updateTask_cases taskId u adv w) as [-> | (i & t & F & ->)];
      [repeat split|].
    apply findIndex_some in F as [F P]. apply str_eqb_spec in P.
    unfold getTaskById. cbn [service tasks nextId].
    rewrite length_assign. repeat split.
    apply find_assign_other with (y := t); [exact F | |];
      apply hasId_other with (taskId := taskId); auto. }
  cbv zeta. split; [apply U|]. split; [apply U|]. split; [apply U|].
  destruct (toggle_is_update taskId adv w) as [-> | [u ->]];
    [repeat split | apply U].
Qed.

Lemma update_leaves_others_witness :
  task2 <> task1 /\
  getTaskById task2
    (snd (updateTask task1 (mkUpdate (Some (lit "X")) None None) 1 world0))
    = getTaskById task2 world0 /\
  getTaskById task2 (snd (toggleTaskCompletion task1 1 world0))
    = getTaskById task2 world0.
Proof.
  assert (N : task2 <> task1) by (vm_compute; discriminate).
  split; [exact N|].
  destruct (@update_leaves_others task1 task2
              (mkUpdate (Some (lit "X")) None None) 1 world0 N)
    as (A & _ & _ & B & _).
  split; assumption.
Defined.

(** X10.  Right after [createTask] has accepted a request, [getTaskById]
    finds the new task under its identifier, the lookup of every other
    identifier answers as before, and the collection has one task more. *)
Theorem create_then_lookup (taskData : CreateTaskRequest) (adv : N * N * N)
    (w w' : World) (newTask : Task) :
  reachable w ->
  createTask taskData adv w = (Ok newTask, w') ->
  getTaskById (id newTask) w' = Some newTask /\
  (forall other, other <> id newTask ->
                 getTaskById other w' = getTaskById other w) /\
  List.length (tasks (service w')) = S (List.length (tasks (service w))) /\
  tasksSubject (service w') = tasks (service w').
Proof.
  intros R C. destruct (createTask_inv _ _ _ C) as (B & (ts & I) & _).
  destruct adv as [[a1 a2] a3]. rewrite createTask_eq in C by exact B.
  injection C as <- <-. unfold getTaskById. cbn [service tasks tasksSubject id].
  repeat split.
  - rewrite find_app_last.
    assert (A : find (hasId (taskIdOf (nextId (service w)) (clock w + a1)))
                     (tasks (service w)) = None).
    { apply find_none_iff. intros t Ht. apply str_eqb_neq. intros E.
      apply consistent_reachable in R. destruct R as [F _].
      rewrite Forall_forall in F. destruct (F t Ht) as (Is & _).
      rewrite E in Is. exact (issued_fresh Is). }
    rewrite A. unfold hasId; cbn [id]. rewrite str_eqb_refl. reflexivity.
  - intros other N. rewrite find_app_last.
    destruct (find (hasId other) (tasks (service w))); [reflexivity|].
    unfold hasId; cbn [id]. rewrite str_eqb_neq by congruence. reflexivity.
  - rewrite List.length_app. cbn [List.length]. lia.
Qed.

Lemma create_then_lookup_witness :
  reachable world0 /\
  createTask brief (0, 0, 0) world0 = (Ok fourth, world1) /\
  getTaskById (id fourth) world1 = Some fourth /\
  List.length (tasks (service world1)) = S (List.length (tasks (service world0))).
Proof.
  assert (C : createTask brief (0, 0, 0) world0 = (Ok fourth, world1))
    by (vm_compute; reflexivity).
  split; [exact reachable_world0|]. split; [exact C|].
  destruct (@create_then_lookup brief (0, 0, 0) world0 world1 fourth
              reachable_world0 C) as (A & _ & B & _).
  split; assumption.
Defined.

(** X11.  [deleteTask] on a task of the collection succeeds with [true];
    afterwards no task carries the identifier, so that a second deletion
    fails with the not-found error; the lookup of every other identifier
    answers as before and the collection has one task less. *)
Theorem delete_removes (taskId : jsstring) (w : World) (old : Task) :
  reachable w ->
  getTaskById taskId w = Some old ->
  exists w',
    deleteTask taskId w = (Ok true, w') /\
    getTaskById taskId w' = None /\
    deleteTask taskId w' = (Err (notFound taskId), w') /\
    (forall other, other <> taskId ->
                   getTaskById other w' = getTaskById other w) /\
    S (List.length (tasks (service w'))) = List.length (tasks (service w)) /\
    tasksSubject (service w') = tasks (service w') /\
    nextId (service w') = nextId (service w).
Proof.
  intros R G. destruct (present_findIndex _ _ G) as (i & F & E).
  exists (commit (splice1 i (tasks (service w))) w).
  assert (A : absent taskId (commit (splice1 i (tasks (service w))) w)).
  { intros t Ht. cbn [commit service tasks] in Ht.
    apply sound_reachable in R. destruct R as (_ & N & _).
    exact (@splice1_removes_id taskId _ _ _ N F t Ht). }
  split; [unfold deleteTask; rewrite F; reflexivity|].
  split; [apply lookup_absent_aux; exact A|].
  split; [unfold deleteTask; rewrite (absent_findIndex A); reflexivity|].
  apply findIndex_some in F as [F P].
  split; [|split; [|split; reflexivity]].
  - intros other N. unfold getTaskById. cbn [commit service tasks].
    apply find_splice1_other with (y := old); [exact F|].
    apply hasId_other with (taskId := taskId); auto.
  - cbn [commit service tasks]. apply length_splice1 with (y := old). exact F.
Qed.

Lemma delete_removes_witness :
  reachable world0 /\ getTaskById task1 world0 = Some first /\
  exists w',
    deleteTask task1 world0 = (Ok true, w') /\
    getTaskById task1 w' = None /\
    deleteTask task1 w' = (Err (notFound task1), w').
Proof.
  assert (G : getTaskById task1 world0 = Some first)
    by (vm_compute; reflexivity).
  split; [exact reachable_world0|]. split; [exact G|].
  destruct (@delete_removes task1 world0 first reachable_world0 G)
    as (w' & D & A & B & _).
  exists w'. split; [exact D|]. split; assumption.
Defined.

(** ** The store: a task through its life *)

Lemma NoDup_map_inj (A B : Type) (f : A -> B) (l : list A) (x y : A) :
  NoDup (map f l) -> In x l -> In y l -> f x = f y -> x = y.
Proof.
  induction l as [|z l IH]; simpl; intros N Hx Hy E; [contradiction|].
  inversion N as [|? ? Nz Nl]; subst.
  destruct Hx as [<-|Hx], Hy as [<-|Hy]; auto.
  - exfalso. apply Nz. rewrite E. apply in_map; exact Hy.
  - exfalso. apply Nz. rewrite <- E. apply in_map; exact Hx.
Qed.

(** X12.  Whatever is called on the store later on, a task keeps the moment
    of its creation and its last update never goes back: a task found later
    under the identifier of a task of the collection has the same
    [createdAt] and an [updatedAt] that is not earlier. *)
Theorem task_keeps_creation_date (w w' : World) (t t' : Task) :
  reachable w -> steps w w' ->
  In t (tasks (service w)) -> In t' (tasks (service w')) -> id t' = id t ->
  createdAt t' = createdAt t /\ updatedAt t <= updatedAt t'.
Proof.
  intros R S I. revert t'.
  induction S as [w|w w1 w2 S IH St]; intros t' I' E.
  - apply sound_reachable in R. destruct R as (_ & N & _).
    rewrite (NoDup_map_inj id _ _ _ N I' I E). split; [reflexivity | lia].
  - specialize (IH R I).
    assert (R1 : reachable w1) by (eapply reachable_steps; eassumption).
    apply consistent_reachable in R1. destruct R1 as [F1 _].
    rewrite Forall_forall in F1.
    apply step_change in St.
    destruct St as [Es _|taskData a1 a2 a3 B ->|taskId updates adv i old F Em ->
                   |taskId i old F ->]; cbn [service tasks commit] in I'.
    + rewrite Es in I'. apply IH; assumption.
    + apply in_app_iff in I' as [I'|[<-|[]]]; [apply IH; assumption|].
      exfalso. cbn [taskFor id] in E.
      apply consistent_reachable in R. destruct R as [F _].
      rewrite Forall_forall in F. destruct (F t I) as (Is & _).
      apply steps_nextId in S. apply (issued_mono S) in Is.
      rewrite <- E in Is. exact (issued_fresh Is).
    + apply in_assign in I' as [-> | I']; [|apply IH; assumption].
      apply findIndex_some in F as [F _]. apply nth_error_In in F.
      destruct (IH old F E) as (C & U).
      destruct (F1 old F) as (_ & _ & L).
      cbn [merge createdAt updatedAt]. split; [exact C | lia].
    + apply IH; [|exact E]. eapply in_splice1; exact I'.
Qed.

Lemma task_keeps_creation_date_witness :
  reachable world0 /\ steps world0 world4 /\
  In first (tasks (service world0)) /\ In renamed (tasks (service world4)) /\
  id renamed = id first /\
  createdAt renamed = createdAt first /\ updatedAt first <= updatedAt renamed.
Proof.
  assert (S : steps world0 world4)
    by (eapply steps_next; [apply steps_refl | apply step_update]).
  assert (I : In first (tasks (service world0))) by (left; reflexivity).
  assert (I' : In renamed (tasks (service world4))) by (left; reflexivity).
  split; [exact reachable_world0|]. split; [exact S|]. split; [exact I|].
  split; [exact I'|]. split; [reflexivity|].
  apply (@task_keeps_creation_date world0 world4 first renamed
           reachable_world0 S I I' eq_refl).
Defined.

(** ** The store: its first collection *)

(** X13.  Whatever the clock does meanwhile, a new store holds the three
    sample tasks in their order, none completed, with identifiers numbered
    1 to 3; its counter of identifiers is at 4 and its BehaviorSubject holds
    the collection. *)
Theorem sample_collection (t0 : N) (advs : nat -> N * N * N) :
  let w := newTaskService t0 advs in
  map title (tasks (service w))
    = [lit "Learn Angular 18"; lit "Build Task Tracker"; lit "Write Unit Tests"]
  /\ map description (tasks (service w))
    = [lit "Study the new features and improvements in Angular 18";
       lit "Create a simple task management application";
       lit "Add comprehensive test coverage for all components"]
  /\ map completed (tasks (service w)) = [Some false; Some false; Some false]
  /\ (exists t1 t2 t3,
        map id (tasks (service w))
          = [taskIdOf 1 t1; taskIdOf 2 t2; taskIdOf 3 t3]
        /\ t0 <= t1 /\ t1 <= t2 /\ t2 <= t3)
  /\ nextId (service w) = 4
  /\ tasksSubject (service w) = tasks (service w).
Proof.
  cbv zeta. unfold newTaskService, sampleTasks. cbn [initializeSampleData].
  destruct (advs 0%nat) as [[a1 a2] a3].
  destruct (advs 1%nat) as [[b1 b2] b3].
  destruct (advs 2%nat) as [[c1 c2] c3].
  rewrite (createTask_taskFor _ a1 a2 a3) by (vm_compute; reflexivity).
  cbn [snd].
  rewrite (createTask_taskFor _ b1 b2 b3) by (vm_compute; reflexivity).
  cbn [snd].
  rewrite (createTask_taskFor _ c1 c2 c3) by (vm_compute; reflexivity).
  cbn [snd service tasks tasksSubject nextId clock app map taskFor title
       description completed id new_title new_description].
  split; [vm_compute; reflexivity|]. split; [vm_compute; reflexivity|].
  split; [reflexivity|].
  split; [|split; reflexivity].
  do 3 eexists. split; [reflexivity|]. cbn [clock]. lia.
Qed.

(** ** The component: calls and the event loop *)

Lemma in_enqueue_keep (e e' : N * callback) (q : list (N * callback)) :
  In e q -> In e (enqueue e' q).
Proof.
  induction q as [|x q IH]; simpl; [tauto|].
  destruct (fst x <=? fst e'); simpl; tauto.
Qed.

Lemma in_schedule (e : N * callback) (d : N) (c : callback) (s : System) :
  In e (queue s) -> In e (queue (schedule d c s)).
Proof. apply in_enqueue_keep. Qed.

Lemma in_emitted (e : N * callback) (s : System) :
  In e (queue s) -> In e (queue (emitted s)).
Proof.
  unfold emitted. destruct (listening s); [apply in_schedule | tauto].
Qed.

(** X14.  No call on the component cancels a pending timer of
    [showSuccess]: a timer that is pending before a call, whichever call it
    is, is still pending after it. *)
Theorem timers_never_cancelled (c : call) (s : System) (due : N) :
  In (due, ClearSuccess) (queue s) ->
  In (due, ClearSuccess) (queue (perform c s)).
Proof.
  intros I. destruct c as [| |taskData adv|taskId adv|task|taskId| |];
    cbn [perform].
  - unfold ngOnInit. apply in_emitted. exact I.
  - unfold ngOnDestroy. cbn [queue]. apply filter_In. split; [exact I|].
    reflexivity.
  - unfold onTaskSubmit.
    change (editingTask (app (clearMessages (setSubmitting true s))))
      with (editingTask (app s)).
    destruct (editingTask (app s)) as [t|].
    + destruct (updateTask _ _ _ _) as [[u|e] w'];
        [apply in_schedule, in_emitted|]; exact I.
    + destruct (createTask _ _ _) as [[u|e] w'];
        [apply in_schedule, in_emitted|]; exact I.
  - unfold onToggleComplete.
    destruct (toggleTaskCompletion _ _ _) as [[u|e] w'];
      [apply in_schedule, in_emitted|]; exact I.
  - exact I.
  - unfold onDeleteTask.
    destruct (deleteTask _ _) as [[u|e] w'];
      [apply in_schedule, in_emitted|]; exact I.
  - exact I.
  - exact I.
Qed.

Lemma timers_never_cancelled_witness :
  In (3200, ClearSuccess) (queue afterDelete) /\
  In (3200, ClearSuccess) (queue (perform Destroy afterDelete)) /\
  In (3200, ClearSuccess) (queue (perform (Toggle task2 0) afterDelete)).
Proof.
  assert (I : In (3200, ClearSuccess) (queue afterDelete))
    by (vm_compute; left; reflexivity).
  split; [exact I|].
  split; [apply (@timers_never_cancelled Destroy afterDelete 3200 I)|].
  apply (@timers_never_cancelled (Toggle task2 0) afterDelete 3200 I).
Defined.

(** With nothing pending, the confirmation of a call on the store is what
    the component receives next, after the snapshot when it listens to the
    store. *)
Lemma fires_after_call (c : callback) (s : System) :
  queue s = [] ->
  exists s2,
    fires (if listening s then 2 else 1) (schedule 100 c (emitted s))
      = deliver c s2 /\
    world s2 = world s /\ now s2 = now s + 100 /\ queue s2 = [] /\
    listening s2 = listening s /\
    editingTask (app s2) = editingTask (app s) /\
    isSubmitting (app s2) = isSubmitting (app s) /\
    errorMessage (app s2) = errorMessage (app s) /\
    successMessage (app s2) = successMessage (app s) /\
    (listening s = true ->
     shownTasks (app s2) = tasksSubject (service (world s)) /\
     isLoading (app s2) = false).
Proof.
  destruct s as [w a t q l]. cbn [queue]. intros ->.
  unfold emitted, schedule.
  cbn [listening world app now queue enqueue].
  destruct l; cbn [world app now queue listening enqueue].
  - cbn [fst]. rewrite N.leb_refl.
    cbn [fires fire queue world app now listening].
    eexists. split; [reflexivity|].
    cbn [now deliver setLoading setShown setApp world app queue listening
         editingTask isSubmitting errorMessage successMessage shownTasks
         isLoading].
    repeat split. lia.
  - cbn [fires fire queue world app now listening].
    eexists. split; [reflexivity|].
    cbn [now app world queue listening].
    repeat (split; [first [reflexivity | lia | discriminate]|]).
    discriminate.
Qed.

(** X15.  [ngOnInit] raises the loading flag, clears both messages and
    subscribes; with nothing else pending, the first thing the component
    receives, 100 ms later, is the value the store holds, which becomes the
    list shown while the loading flag is lowered. *)
Theorem load_shows_collection (s : System) :
  queue s = [] ->
  isLoading (app (ngOnInit s)) = true /\
  errorMessage (app (ngOnInit s)) = [] /\
  successMessage (app (ngOnInit s)) = [] /\
  listening (ngOnInit s) = true /\
  world (ngOnInit s) = world s /\
  exists s',
    fire (ngOnInit s) = Some s' /\
    now s' = now s + 100 /\
    shownTasks (app s') = tasksSubject (service (world s)) /\
    (reachable (world s) -> shownTasks (app s') = tasks (service (world s))) /\
    isLoading (app s') = false /\
    editingTask (app s') = editingTask (app s) /\
    queue s' = [].
Proof.
  destruct s as [w a t q l]. cbn [queue]. intros ->.
  unfold ngOnInit, emitted, schedule, clearMessages, setLoading, setApp.
  cbn [listening world app now queue enqueue isLoading errorMessage
       successMessage].
  do 5 (split; [reflexivity|]).
  eexists. split; [reflexivity|].
  cbn [now deliver setLoading setShown setApp world app queue listening
       editingTask shownTasks isLoading service].
  split; [lia|]. split; [reflexivity|].
  split; [|repeat split].
  intros R. apply consistent_reachable in R. apply R.
Qed.

Lemma load_shows_collection_witness :
  queue (newAppComponent world0 0) = [] /\
  isLoading (app (ngOnInit (newAppComponent world0 0))) = true /\
  exists s',
    fire (ngOnInit (newAppComponent world0 0)) = Some s' /\
    now s' = 100 /\ isLoading (app s') = false /\
    shownTasks (app s') = tasks (service world0).
Proof.
  split; [reflexivity|].
  destruct (@load_shows_collection (newAppComponent world0 0) eq_refl)
    as (L & _ & _ & _ & _ & s' & F & Nw & _ & Sh & Lo & _).
  split; [exact L|].
  exists s'. split; [exact F|]. split; [exact Nw|]. split; [exact Lo|].
  apply Sh. exact reachable_world0.
Defined.

Lemma world_after_ok (c : callback) (w' : World) (s : System) :
  world (schedule 100 c (emitted (setWorld w' s))) = w'.
Proof.
  unfold emitted. cbn [listening setWorld].
  destruct (listening s); reflexivity.
Qed.

Lemma app_after_ok (c : callback) (w' : World) (s : System) :
  app (schedule 100 c (emitted (setWorld w' s))) = app s.
Proof.
  unfold emitted. cbn [listening setWorld].
  destruct (listening s); reflexivity.
Qed.

Lemma updateTask_ok_subject (taskId : jsstring) (updates : UpdateTaskRequest)
    (adv : N) (w w' : World) (u : Task) :
  updateTask taskId updates adv w = (Ok u, w') ->
  tasksSubject (service w') = tasks (service w').
Proof.
  unfold updateTask. destruct (findIndex _ _) as [[i t]|]; [|discriminate].
  destruct (emptyTitle updates); [discriminate|].
  intros H; injection H as _ <-. reflexivity.
Qed.

Lemma onTaskSubmit_editing (taskData : CreateTaskRequest) (adv : N * N * N)
    (s : System) (t : Task) :
  editingTask (app s) = Some t ->
  onTaskSubmit taskData adv s =
  match updateTask (id t) (asUpdate taskData) (fst (fst adv)) (world s) with
  | (Ok updatedTask, w') =>
      schedule 100 (UpdateNext updatedTask)
        (emitted (setWorld w' (clearMessages (setSubmitting true s))))
  | (Err error, w') =>
      setSubmitting false
        (handleError (lit "Failed to update task") error
           (setWorld w' (clearMessages (setSubmitting true s))))
  end.
Proof.
  intros E. unfold onTaskSubmit.
  change (editingTask (app (clearMessages (setSubmitting true s))))
    with (editingTask (app s)).
  rewrite E. reflexivity.
Qed.

Lemma onTaskSubmit_adding (taskData : CreateTaskRequest) (adv : N * N * N)
    (s : System) :
  editingTask (app s) = None ->
  onTaskSubmit taskData adv s =
  match createTask taskData adv (world s) with
  | (Ok newTask, w') =>
      schedule 100 (CreateNext newTask)
        (emitted (setWorld w' (clearMessages (setSubmitting true s))))
  | (Err error, w') =>
      setSubmitting false
        (handleError (lit "Failed to create task") error
           (setWorld w' (clearMessages (setSubmitting true s))))
  end.
Proof.
  intros E. unfold onTaskSubmit.
  change (editingTask (app (clearMessages (setSubmitting true s))))
    with (editingTask (app s)).
  rewrite E. reflexivity.
Qed.

(** ** The component: submitting the form *)

(** X16.  [onTaskSubmit] goes one way or the other by the editing reference
    alone.  With a task being edited it calls [updateTask] on that task's
    identifier and never creates: the number of tasks and the counter of
    identifiers stay.  With none it calls [createTask] and never touches a
    task of the collection: the collection only grows at its end. *)
Theorem submit_routes (taskData : CreateTaskRequest) (adv : N * N * N)
    (s : System) :
  (forall t, editingTask (app s) = Some t ->
     world (onTaskSubmit taskData adv s)
       = snd (updateTask (id t) (asUpdate taskData) (fst (fst adv)) (world s))
     /\ nextId (service (world (onTaskSubmit taskData adv s)))
        = nextId (service (world s))
     /\ List.length (tasks (service (world (onTaskSubmit taskData adv s))))
        = List.length (tasks (service (world s)))) /\
  (editingTask (app s) = None ->
     world (onTaskSubmit taskData adv s)
       = snd (createTask taskData adv (world s))
     /\ exists l, tasks (service (world (onTaskSubmit taskData adv s)))
                  = tasks (service (world s)) ++ l).
Proof.
  split.
  - intros t E. rewrite (onTaskSubmit_editing taskData adv s E).
    assert (W : world
                  match updateTask (id t) (asUpdate taskData) (fst (fst adv))
                          (world s) with
                  | (Ok updatedTask, w') =>
                      schedule 100 (UpdateNext updatedTask)
                        (emitted (setWorld w'
                                    (clearMessages (setSubmitting true s))))
                  | (Err error, w') =>
                      setSubmitting false
                        (handleError (lit "Failed to update task") error
                           (setWorld w'
                              (clearMessages (setSubmitting true s))))
                  end
                = snd (updateTask (id t) (asUpdate taskData) (fst (fst adv))
                         (world s))).
    { destruct (updateTask _ _ _ _) as [[u|e] w'];
        [apply world_after_ok | reflexivity]. }
    rewrite W. split; [reflexivity|].
    destruct (updateTask_cases (id t) (asUpdate taskData) (fst (fst adv))
                (world s)) as [-> | (i & old & _ & ->)];
      [split; reflexivity|].
    cbn [service tasks nextId]. rewrite length_assign. split; reflexivity.
  - intros E. rewrite (onTaskSubmit_adding taskData adv s E).
    assert (W : world
                  match createTask taskData adv (world s) with
                  | (Ok newTask, w') =>
                      schedule 100 (CreateNext newTask)
                        (emitted (setWorld w'
                                    (clearMessages (setSubmitting true s))))
                  | (Err error, w') =>
                      setSubmitting false
                        (handleError (lit "Failed to create task") error
                           (setWorld w'
                              (clearMessages (setSubmitting true s))))
                  end
                = snd (createTask taskData adv (world s))).
    { destruct (createTask _ _ _) as [[u|e] w'];
        [apply world_after_ok | reflexivity]. }
    rewrite W. split; [reflexivity|].
    destruct (blank (new_title taskData)) eqn:B.
    + rewrite createTask_blank by exact B. exists []. cbn [snd].
      rewrite List.app_nil_r. reflexivity.
    + destruct adv as [[a1 a2] a3]. rewrite createTask_taskFor by exact B.
      eexists. reflexivity.
Qed.

(** X17.  A submission with an empty or blank title is refused at once: the
    error of the store becomes the error message ("Task title is required"
    when adding, "Task title cannot be empty" when editing a task of the
    collection), the submitting flag is lowered again, and the store, the
    editing reference and what is pending stay as they were. *)
Theorem submit_blank_title_refused (taskData : CreateTaskRequest)
    (adv : N * N * N) (s : System) :
  blank (new_title taskData) = true ->
  (editingTask (app s) = None \/
   exists t old, editingTask (app s) = Some t /\
                 getTaskById (id t) (world s) = Some old) ->
  errorMessage (app (onTaskSubmit taskData adv s))
    = (match editingTask (app s) with
       | None => lit "Task title is required"
       | Some _ => lit "Task title cannot be empty"
       end) /\
  successMessage (app (onTaskSubmit taskData adv s)) = [] /\
  isSubmitting (app (onTaskSubmit taskData adv s)) = false /\
  editingTask (app (onTaskSubmit taskData adv s)) = editingTask (app s) /\
  shownTasks (app (onTaskSubmit taskData adv s)) = shownTasks (app s) /\
  world (onTaskSubmit taskData adv s) = world s /\
  queue (onTaskSubmit taskData adv s) = queue s.
Proof.
  intros B [E | (t & old & E & G)].
  - rewrite (onTaskSubmit_adding taskData adv s E), E.
    rewrite createTask_blank by exact B. repeat split. exact E.
  - rewrite (onTaskSubmit_editing taskData adv s E), E.
    assert (U := @update_blank_title_aux (id t) (new_title taskData)
                   (Some (new_description taskData)) None (fst (fst adv))
                   (world s) old G B).
    unfold asUpdate. rewrite U. repeat split. exact E.
Qed.

Lemma submit_blank_title_refused_witness :
  blank (new_title (mkCreate (lit "  ") (lit "d"))) = true /\
  editingTask (app started) = None /\
  errorMessage (app (onTaskSubmit (mkCreate (lit "  ") (lit "d")) (0, 0, 0)
                       started))
    = lit "Task title is required" /\
  isSubmitting (app (onTaskSubmit (mkCreate (lit "  ") (lit "d")) (0, 0, 0)
                       started)) = false.
Proof.
  assert (E : editingTask (app started) = None) by (vm_compute; reflexivity).
  split; [reflexivity|]. split; [exact E|].
  destruct (@submit_blank_title_refused (mkCreate (lit "  ") (lit "d"))
              (0, 0, 0) started eq_refl (or_introl E)) as (A & _ & B & _).
  rewrite E in A. split; assumption.
Defined.

(** X18.  Editing to the end.  With a task of the collection being edited,
    a title that is not blank and nothing pending, [onTaskSubmit] raises the
    submitting flag and keeps the editing reference until the store's answer
    arrives; then the task stored carries the trimmed title, the success
    message names it, the editing reference is cleared and the submitting
    flag lowered, and a component that listens to the store shows the
    collection as it now is. *)
Theorem submit_edit_confirmed (taskData : CreateTaskRequest) (adv : N * N * N)
    (s : System) (t old : Task) :
  editingTask (app s) = Some t ->
  getTaskById (id t) (world s) = Some old ->
  blank (new_title taskData) = false ->
  queue s = [] ->
  isSubmitting (app (onTaskSubmit taskData adv s)) = true /\
  editingTask (app (onTaskSubmit taskData adv s)) = Some t /\
  exists updatedTask s',
    fires (if listening s then 2 else 1) (onTaskSubmit taskData adv s) = s' /\
    getTaskById (id t) (world s') = Some updatedTask /\
    title updatedTask = trim (new_title taskData) /\
    successMessage (app s') = updatedText updatedTask /\
    errorMessage (app s') = [] /\
    editingTask (app s') = None /\
    isSubmitting (app s') = false /\
    now s' = now s + 100 /\
    (listening s = true -> shownTasks (app s') = tasks (service (world s'))).
Proof.
  intros E G B Q.
  assert (Em : emptyTitle (asUpdate taskData) = false).
  { unfold emptyTitle, asUpdate; cbn [upd_title].
    rewrite truthy_trim, B. reflexivity. }
  destruct (updateTask_present _ _ (fst (fst adv)) _ G Em) as (w' & U & G' & _).
  rewrite (onTaskSubmit_editing taskData adv s E), U.
  rewrite app_after_ok.
  split; [reflexivity|]. split; [exact E|].
  destruct (@fires_after_call
              (UpdateNext (merge old (asUpdate taskData)
                             (clock (world s) + fst (fst adv))))
              (setWorld w' (clearMessages (setSubmitting true s))) Q)
    as (s2 & F & W & Nw & _ & _ & _ & _ & Er & _ & L).
  change (listening (setWorld w' (clearMessages (setSubmitting true s))))
    with (listening s) in F, L.
  eexists; eexists. split; [exact F|].
  cbn [deliver setSubmitting setEditing showSuccess schedule setApp app world
       now successMessage errorMessage editingTask isSubmitting shownTasks].
  rewrite W. cbn [setWorld world].
  split; [exact G'|].
  split; [cbn [merge title asUpdate upd_title option_map or_else];
          rewrite truthy_trim, B; reflexivity|].
  split; [reflexivity|]. split; [exact Er|].
  split; [reflexivity|]. split; [reflexivity|]. split; [exact Nw|].
  intros Li. destruct (L Li) as (Sh & _). rewrite Sh. cbn [setWorld world].
  exact (updateTask_ok_subject _ _ _ _ U).
Qed.

Lemma submit_edit_confirmed_witness :
  editingTask (app editingFirst) = Some first /\
  getTaskById (id first) (world editingFirst) = Some first /\
  queue editingFirst = [] /\
  exists updatedTask s',
    fires (if listening editingFirst then 2 else 1)
      (onTaskSubmit (mkCreate (lit " New ") (lit "d")) (1, 0, 0) editingFirst)
      = s' /\
    title updatedTask = trim (lit " New ") /\
    successMessage (app s') = updatedText updatedTask /\
    editingTask (app s') = None /\ isSubmitting (app s') = false.
Proof.
  assert (E : editingTask (app editingFirst) = Some first)
    by (vm_compute; reflexivity).
  assert (G : getTaskById (id first) (world editingFirst) = Some first)
    by (vm_compute; reflexivity).
  assert (Q : queue editingFirst = []) by (vm_compute; reflexivity).
  split; [exact E|]. split; [exact G|]. split; [exact Q|].
  destruct (@submit_edit_confirmed (mkCreate (lit " New ") (lit "d")) (1, 0, 0)
              editingFirst first first E G eq_refl Q)
    as (_ & _ & u & s' & F & _ & T & S & _ & Ed & Su & _).
  exists u, s'. repeat split; assumption.
Defined.

(** X19.  Adding to the end.  With no task being edited, a title that is
    not blank and nothing pending, the store's answer to [onTaskSubmit]
    leaves the new task, with its trimmed title, at the end of the
    collection; the success message names it, the submitting flag is
    lowered, the editing reference is still empty, and a component that
    listens to the store shows the collection as it now is. *)
Theorem submit_new_confirmed (taskData : CreateTaskRequest) (a1 a2 a3 : N)
    (s : System) :
  editingTask (app s) = None ->
  blank (new_title taskData) = false ->
  queue s = [] ->
  isSubmitting (app (onTaskSubmit taskData (a1, a2, a3) s)) = true /\
  exists newTask s',
    fires (if listening s then 2 else 1) (onTaskSubmit taskData (a1, a2, a3) s)
      = s' /\
    tasks (service (world s')) = tasks (service (world s)) ++ [newTask] /\
    title newTask = trim (new_title taskData) /\
    completed newTask = Some false /\
    successMessage (app s') = createdText newTask /\
    errorMessage (app s') = [] /\
    editingTask (app s') = None /\
    isSubmitting (app s') = false /\
    now s' = now s + 100 /\
    (listening s = true -> shownTasks (app s') = tasks (service (world s'))).
Proof.
  intros E B Q.
  rewrite (onTaskSubmit_adding taskData (a1, a2, a3) s E).
  rewrite (createTask_taskFor _ a1 a2 a3 _ B).
  rewrite app_after_ok.
  split; [reflexivity|].
  match goal with
  | |- context [schedule 100 ?c (emitted ?s0)] =>
      destruct (@fires_after_call c s0 Q)
        as (s2 & F & W & Nw & _ & _ & Ed & _ & Er & _ & L)
  end.
  cbn [listening setWorld] in F, L.
  change (listening (clearMessages (setSubmitting true s)))
    with (listening s) in F, L.
  eexists; eexists. split; [exact F|].
  cbn [deliver setSubmitting showSuccess schedule setApp app world
       now successMessage errorMessage editingTask isSubmitting shownTasks].
  rewrite W. cbn [setWorld world service tasks].
  split; [reflexivity|]. split; [reflexivity|]. split; [reflexivity|].
  split; [reflexivity|]. split; [exact Er|].
  split; [rewrite Ed; exact E|]. split; [reflexivity|]. split; [exact Nw|].
  intros Li. destruct (L Li) as (Sh & _). rewrite Sh. reflexivity.
Qed.

Lemma submit_new_confirmed_witness :
  editingTask (app started) = None /\ queue started = [] /\
  exists newTask s',
    fires (if listening started then 2 else 1)
      (onTaskSubmit (mkCreate (lit " New ") (lit "d")) (1, 0, 0) started) = s' /\
    tasks (service (world s')) = tasks (service (world started)) ++ [newTask] /\
    title newTask = trim (lit " New ") /\
    successMessage (app s') = createdText newTask /\
    isSubmitting (app s') = false.
Proof.
  assert (E : editingTask (app started) = None) by (vm_compute; reflexivity).
  assert (Q : queue started = []) by (vm_compute; reflexivity).
  split; [exact E|]. split; [exact Q|].
  destruct (@submit_new_confirmed (mkCreate (lit " New ") (lit "d")) 1 0 0
              started E eq_refl Q)
    as (_ & u & s' & F & Ts & T & _ & S & _ & _ & Su & _).
  exists u, s'. repeat split; assumption.
Defined.

(** ** The component: toggling *)

Lemma onToggleComplete_refused (taskId : jsstring) (adv : N) (s : System)
    (error : Error) (w' : World) :
  toggleTaskCompletion taskId adv (world s) = (Err error, w') ->
  onToggleComplete taskId adv s =
  handleError (lit "Failed to update task status") error
    (setWorld w' (clearMessages s)).
Proof.
  intros D. unfold onToggleComplete.
  change (world (clearMessages s)) with (world s). rewrite D. reflexivity.
Qed.

Lemma onToggleComplete_accepted (taskId : jsstring) (adv : N) (s : System)
    (u : Task) (w' : World) :
  toggleTaskCompletion taskId adv (world s) = (Ok u, w') ->
  onToggleComplete taskId adv s =
  schedule 100 (ToggleNext u) (emitted (setWorld w' (clearMessages s))).
Proof.
  intros D. unfold onToggleComplete.
  change (world (clearMessages s)) with (world s). rewrite D. reflexivity.
Qed.

(** X20.  Toggling to the end.  For a task of the collection and with
    nothing pending, the store's answer to [onToggleComplete] leaves the
    task stored with its completion flipped; the success message says
    "completed" for a task that was pending and "pending" for one that was
    completed; the editing reference is not touched; and a component that
    listens to the store shows the collection as it now is. *)
Theorem toggle_confirmed (taskId : jsstring) (adv : N) (s : System)
    (t : Task) :
  getTaskById taskId (world s) = Some t ->
  queue s = [] ->
  exists updatedTask s',
    fires (if listening s then 2 else 1) (onToggleComplete taskId adv s) = s' /\
    getTaskById taskId (world s') = Some updatedTask /\
    completed updatedTask = Some (negb (holds (completed t))) /\
    successMessage (app s') = toggledText updatedTask /\
    successMessage (app s')
      = (if holds (completed t) then lit "Task marked as pending!"
         else lit "Task marked as completed!") /\
    errorMessage (app s') = [] /\
    editingTask (app s') = editingTask (app s) /\
    now s' = now s + 100 /\
    (listening s = true -> shownTasks (app s') = tasks (service (world s'))).
Proof.
  intros G Q.
  destruct (updateTask_present taskId
              (mkUpdate None None (Some (Some (negb (holds (completed t))))))
              adv (world s)
              G eq_refl) as (w' & U & G' & _).
  assert (T := toggle_present _ adv _ G). rewrite U in T.
  rewrite (onToggleComplete_accepted _ _ s T).
  match goal with
  | |- context [schedule 100 ?c (emitted ?s0)] =>
      destruct (@fires_after_call c s0 Q)
        as (s2 & F & W & Nw & _ & _ & Ed & _ & Er & _ & L)
  end.
  cbn [listening setWorld] in F, L.
  change (listening (clearMessages s)) with (listening s) in F, L.
  eexists; eexists. split; [exact F|].
  cbn [deliver showSuccess schedule setApp app world
       now successMessage errorMessage editingTask shownTasks].
  rewrite W. cbn [setWorld world].
  split; [exact G'|]. split; [reflexivity|]. split; [reflexivity|].
  split; [cbn [merge completed upd_completed];
          destruct (holds (completed t)); vm_compute; reflexivity|].
  split; [exact Er|]. split; [exact Ed|]. split; [exact Nw|].
  intros Li. destruct (L Li) as (Sh & _). rewrite Sh. cbn [setWorld world].
  exact (updateTask_ok_subject _ _ _ _ U).
Qed.

Lemma toggle_confirmed_witness :
  getTaskById task1 (world started) = Some first /\ queue started = [] /\
  exists updatedTask s',
    fires (if listening started then 2 else 1) (onToggleComplete task1 4 started)
      = s' /\
    completed updatedTask = Some true /\
    successMessage (app s') = lit "Task marked as completed!".
Proof.
  assert (G : getTaskById task1 (world started) = Some first)
    by (vm_compute; reflexivity).
  assert (Q : queue started = []) by (vm_compute; reflexivity).
  split; [exact G|]. split; [exact Q|].
  destruct (@toggle_confirmed task1 4 started first G Q)
    as (u & s' & F & _ & C & _ & S & _).
  exists u, s'. split; [exact F|]. split; [exact C | exact S].
Defined.

(** X21.  [onToggleComplete] on an identifier that no task of the
    collection carries shows the not-found error of the store at once and
    changes nothing else: no success message, nothing pending, the store and
    the editing reference as they were. *)
Theorem toggle_unknown_refused (taskId : jsstring) (adv : N) (s : System) :
  absent taskId (world s) ->
  errorMessage (app (onToggleComplete taskId adv s))
    = lit "Task with ID " ++ taskId ++ lit " not found" /\
  successMessage (app (onToggleComplete taskId adv s)) = [] /\
  editingTask (app (onToggleComplete taskId adv s)) = editingTask (app s) /\
  shownTasks (app (onToggleComplete taskId adv s)) = shownTasks (app s) /\
  queue (onToggleComplete taskId adv s) = queue s /\
  world (onToggleComplete taskId adv s) = world s.
Proof.
  intros A.
  assert (T : toggleTaskCompletion taskId adv (world s)
              = (Err (notFound taskId), world s)).
  { unfold toggleTaskCompletion.
    rewrite find_findIndex, (absent_findIndex A). reflexivity. }
  rewrite (onToggleComplete_refused _ _ s T). repeat split.
Qed.

Lemma toggle_unknown_refused_witness :
  absent (lit "invalid-id") (world started) /\
  errorMessage (app (onToggleComplete (lit "invalid-id") 0 started))
    = lit "Task with ID invalid-id not found".
Proof.
  assert (A : absent (lit "invalid-id") (world started)) by exact absent_world0.
  split; [exact A|].
  destruct (@toggle_unknown_refused (lit "invalid-id") 0 started A) as (E & _).
  exact E.
Defined.

(** ** The component: the list shown after a deletion *)

(** X22.  With nothing pending and a component that listens to the store,
    once a deletion the store accepted is confirmed the list shown is the
    collection of the store, which no longer holds a task with the deleted
    identifier when the store is in one of its worlds. *)
Theorem delete_refreshes_list (taskId : jsstring) (s : System) (old : Task) :
  listening s = true ->
  queue s = [] ->
  reachable (world s) ->
  getTaskById taskId (world s) = Some old ->
  shownTasks (app (fires 2 (onDeleteTask taskId s)))
    = tasks (service (world (fires 2 (onDeleteTask taskId s)))) /\
  (forall t, In t (shownTasks (app (fires 2 (onDeleteTask taskId s)))) ->
             id t <> taskId /\ In t (tasks (service (world s)))) /\
  isLoading (app (fires 2 (onDeleteTask taskId s))) = false.
Proof.
  intros Li Q R G.
  destruct (present_findIndex _ _ G) as (i & F & _).
  assert (D : deleteTask taskId (world s)
              = (Ok true, commit (splice1 i (tasks (service (world s))))
                                 (world s)))
    by (unfold deleteTask; rewrite F; reflexivity).
  rewrite (@onDeleteTask_accepted _ _ _ _ D).
  match goal with
  | |- context [schedule 100 ?c (emitted ?s0)] =>
      destruct (@fires_after_call c s0 Q)
        as (s2 & Fi & W & _ & _ & _ & _ & _ & _ & _ & L)
  end.
  cbn [listening setWorld] in Fi, L.
  change (listening (clearMessages s)) with (listening s) in Fi, L.
  rewrite Li in Fi. rewrite Fi. destruct (L Li) as (Sh & Lo).
  assert (A : shownTasks (app (deliver (DeleteNext taskId) s2)) = shownTasks (app s2)).
  { cbn [deliver]. set (s1 := showSuccess _ s2).
    assert (E1 : shownTasks (app s1) = shownTasks (app s2)) by reflexivity.
    rewrite <- E1. clearbody s1.
    destruct (editingTask (app s1)) as [u|];
      [destruct (str_eqb (id u) taskId)|]; reflexivity. }
  assert (Bl : isLoading (app (deliver (DeleteNext taskId) s2)) = isLoading (app s2)).
  { cbn [deliver]. set (s1 := showSuccess _ s2).
    assert (E1 : isLoading (app s1) = isLoading (app s2)) by reflexivity.
    rewrite <- E1. clearbody s1.
    destruct (editingTask (app s1)) as [u|];
      [destruct (str_eqb (id u) taskId)|]; reflexivity. }
  assert (Wd : world (deliver (DeleteNext taskId) s2) = world s2).
  { cbn [deliver]. set (s1 := showSuccess _ s2).
    assert (E1 : world s1 = world s2) by reflexivity.
    rewrite <- E1. clearbody s1.
    destruct (editingTask (app s1)) as [u|];
      [destruct (str_eqb (id u) taskId)|]; reflexivity. }
  rewrite A, Bl, Wd, Sh, W. cbn [setWorld world commit service tasks tasksSubject].
  split; [reflexivity|]. split; [|exact Lo].
  intros t Ht. split; [|eapply in_splice1; exact Ht].
  apply sound_reachable in R. destruct R as (_ & N & _).
  exact (@splice1_removes_id taskId _ _ _ N F t Ht).
Qed.

Lemma delete_refreshes_list_witness :
  listening started = true /\ queue started = [] /\
  reachable (world started) /\
  getTaskById task1 (world started) = Some first /\
  shownTasks (app (fires 2 (onDeleteTask task1 started)))
    = tasks (service (world (fires 2 (onDeleteTask task1 started)))).
Proof.
  assert (L : listening started = true) by (vm_compute; reflexivity).
  assert (Q : queue started = []) by (vm_compute; reflexivity).
  assert (R : reachable (world started)) by exact reachable_world0.
  assert (G : getTaskById task1 (world started) = Some first)
    by (vm_compute; reflexivity).
  split; [exact L|]. split; [exact Q|]. split; [exact R|]. split; [exact G|].
  destruct (@delete_refreshes_list task1 started first L Q R G) as (A & _).
  exact A.
Defined.

(** ** The component: the submitting flag *)

Lemma deliver_keeps_flag (c : callback) (s : System) :
  answersSubmit c = false ->
  isSubmitting (app (deliver c s)) = isSubmitting (app s) /\
  forall e, In e (queue s) -> In e (queue (deliver c s)).
Proof.
  destruct c as [|snap|u|u|u|taskId]; cbn [answersSubmit]; try discriminate;
    intros _.
  - split; [reflexivity | auto].
  - split; [reflexivity | auto].
  - split; [reflexivity|]. intros e I. cbn [deliver]. apply in_schedule.
    exact I.
  - cbn [deliver]. set (s1 := showSuccess _ s).
    assert (E1 : isSubmitting (app s1) = isSubmitting (app s)) by reflexivity.
    assert (Q1 : forall e, In e (queue s) -> In e (queue s1))
      by (intros e I; apply in_schedule; exact I).
    rewrite <- E1. clearbody s1.
    destruct (editingTask (app s1)) as [t|];
      [destruct (str_eqb (id t) taskId)|]; split; auto.
Qed.

(** X23.  While the component is displayed, the submitting flag is never
    left raised without an answer of the store on its way: whenever
    [isSubmitting] is true, the confirmation of an update or of a creation
    is pending. *)
Theorem submitting_has_answer_pending (s : System) :
  displayed s ->
  isSubmitting (app s) = true ->
  exists due c, In (due, c) (queue s) /\ answersSubmit c = true.
Proof.
  induction 1 as [w t|c s D IH A|s s' D IH F].
  - unfold ngOnInit, newAppComponent, emitted. cbn. discriminate.
  - assert (K : forall s1 : System,
               isSubmitting (app s1) = isSubmitting (app s) ->
               (forall e, In e (queue s) -> In e (queue s1)) ->
               isSubmitting (app s1) = true ->
               exists due c, In (due, c) (queue s1) /\ answersSubmit c = true).
    { intros s1 E Q T. rewrite E in T.
      destruct (IH T) as (d & c0 & I & An). exists d, c0. auto. }
    destruct c as [| |taskData adv|taskId adv|task|taskId| |];
      cbn [whileAlive] in A; try discriminate A; cbn [perform].
    + destruct (editingTask (app s)) as [t|] eqn:E.
      * rewrite (onTaskSubmit_editing taskData adv s E).
        destruct (updateTask _ _ _ _) as [[u|e] w'].
        -- intros _. eexists; exists (UpdateNext u).
           split; [apply in_enqueue | reflexivity].
        -- cbn. discriminate.
      * rewrite (onTaskSubmit_adding taskData adv s E).
        destruct (createTask _ _ _) as [[u|e] w'].
        -- intros _. eexists; exists (CreateNext u).
           split; [apply in_enqueue | reflexivity].
        -- cbn. discriminate.
    + unfold onToggleComplete.
      destruct (toggleTaskCompletion _ _ _) as [[u|e] w'].
      * apply K; [rewrite app_after_ok; reflexivity|].
        intros e I. apply in_schedule, in_emitted. exact I.
      * apply K; [reflexivity | auto].
    + apply K; [reflexivity | auto].
    + unfold onDeleteTask.
      destruct (deleteTask _ _) as [[u|e] w'].
      * apply K; [rewrite app_after_ok; reflexivity|].
        intros e I. apply in_schedule, in_emitted. exact I.
      * apply K; [reflexivity | auto].
    + apply K; [reflexivity | auto].
    + apply K; [reflexivity | auto].
  - unfold fire in F. destruct s as [w a t q l]. cbn [queue] in *.
    destruct q as [|[d c] q]; [discriminate|]. injection F as <-.
    cbn [world app now listening] in *.
    destruct (answersSubmit c) eqn:An.
    + destruct c; try discriminate An; cbn; discriminate.
    + destruct (deliver_keeps_flag c
                  (mkSystem w a (N.max t d) q l) An) as (E & Q).
      rewrite E. cbn [app]. intros T.
      destruct (IH T) as (d0 & c0 & [I|I] & A0).
      * injection I as <- <-. congruence.
      * exists d0, c0. split; [apply Q; exact I | exact A0].
Qed.

Lemma submitting_has_answer_pending_witness :
  displayed (perform (Submit brief (0, 0, 0)) started) /\
  isSubmitting (app (perform (Submit brief (0, 0, 0)) started)) = true /\
  exists due c, In (due, c) (queue (perform (Submit brief (0, 0, 0)) started))
                /\ answersSubmit c = true.
Proof.
  assert (D : displayed (perform (Submit brief (0, 0, 0)) started)).
  { apply displayed_call; [|reflexivity].
    apply displayed_fire with (s := ngOnInit (newAppComponent world0 0));
      [apply displayed_new | vm_compute; reflexivity]. }
  assert (T : isSubmitting (app (perform (Submit brief (0, 0, 0)) started))
              = true) by (vm_compute; reflexivity).
  split; [exact D|]. split; [exact T|].
  apply (@submitting_has_answer_pending _ D T).
Defined.
